(** * xray-rpc: the release-sync pipeline of [compile.py]

    A shallow embedding of [compile.py] (download of the Xray-core source
    archive, expansion, protobuf compilation, import rewriting and version
    synchronisation) together with the properties its specification states.

    Python values are modelled as follows.
    - [str] is [string]; a character is an [ascii], read as a code point
      below 256.  File contents are the text that Python reads and writes.
    - [pathlib.Path] is the list of its components, from the root.
    - The file system is a finite map from paths to nodes.  Its keys are
      compared component by component: [..] is not resolved and links are
      not followed, so that a path with a component [..] names no entry.
      Permission bits are left out.
    - The network, the external processes, the clock and the zip decoder
      are oracles collected in the record [env].
    - A Python function is a state transformer over [world] that returns a
      value or raises an exception. *)

From stdpp Require Import gmap strings list fin_maps pretty.
From Stdlib Require Import Ascii ZArith.

Open Scope Z_scope.

(** [simpl] may unfold [+:+] on a string that starts with a constructor. *)
#[local] Arguments String.append !_ _ / : simpl nomatch.

(** ** Characters and strings *)

Definition LF : ascii := "010"%char.

(** [Py_UNICODE_ISSPACE] on code points below 256: this is what both
    [str.strip()] and the pattern class [\s] use. *)
Definition is_space (a : ascii) : bool :=
  let n := nat_of_ascii a in
  ((9 <=? n) && (n <=? 13) || (28 <=? n) && (n <=? 32)
   || (n =? 133) || (n =? 160))%nat.

Fixpoint str_all (p : ascii → bool) (s : string) : bool :=
  match s with
  | EmptyString => true
  | String a s' => p a && str_all p s'
  end.

(** [s.startswith(p)] *)
Fixpoint startswith (s p : string) {struct p} : bool :=
  match p, s with
  | EmptyString, _ => true
  | String b p', String a s' => Ascii.eqb a b && startswith s' p'
  | String _ _, EmptyString => false
  end.

(** [needle in s] *)
Fixpoint contains (needle s : string) : bool :=
  startswith s needle ||
  match s with
  | EmptyString => false
  | String _ s' => contains needle s'
  end.

(** [s.replace(old, new)] for a one-character [old]. *)
Fixpoint replace_char (old : ascii) (new : string) (s : string) : string :=
  match s with
  | EmptyString => EmptyString
  | String a s' =>
      if Ascii.eqb a old then new +:+ replace_char old new s'
      else String a (replace_char old new s')
  end.

Fixpoint lstrip (s : string) : string :=
  match s with
  | String a s' => if is_space a then lstrip s' else s
  | EmptyString => EmptyString
  end.

Fixpoint rstrip (s : string) : string :=
  match s with
  | EmptyString => EmptyString
  | String a s' =>
      match rstrip s' with
      | EmptyString => if is_space a then EmptyString else String a EmptyString
      | t => String a t
      end
  end.

(** [s.strip()] *)
Definition strip (s : string) : string := rstrip (lstrip s).

(** [sep.join(l)] *)
Fixpoint join (sep : string) (l : list string) : string :=
  match l with
  | [] => ""
  | [x] => x
  | x :: l' => x +:+ sep +:+ join sep l'
  end.

(** [s.split(sep)] for a one-character [sep]. *)
Fixpoint split_char (sep : ascii) (s : string) : list string :=
  match s with
  | EmptyString => [EmptyString]
  | String a s' =>
      if Ascii.eqb a sep then EmptyString :: split_char sep s'
      else
        match split_char sep s' with
        | c :: l => String a c :: l
        | [] => [String a EmptyString]
        end
  end.

(** [s.endswith(suffix)] *)
Fixpoint endswith (s suffix : string) : bool :=
  String.eqb s suffix ||
  match s with
  | EmptyString => false
  | String _ s' => endswith s' suffix
  end.

(** ** The fragment of [re] that the import pattern uses

    Character sets, greedy repetition of a character set, capturing groups
    and concatenation.  Matching is by backtracking in the order of the
    [re] module: a greedy repetition first takes as many characters as it
    can and gives them back one at a time while the rest of the pattern
    fails. *)

Inductive cset : Type :=
  | CLit (c : ascii)   (* the character itself *)
  | CSpace             (* \s *)
  | CAny.              (* .  (no DOTALL flag: anything but a line feed) *)

Definition cset_mem (cs : cset) (a : ascii) : bool :=
  match cs with
  | CLit c => Ascii.eqb a c
  | CSpace => is_space a
  | CAny => negb (Ascii.eqb a LF)
  end.

Inductive regex : Type :=
  | REps
  | RSet (cs : cset)
  | RStar (cs : cset)
  | RPlus (cs : cset)
  | RGroup (i : nat) (r : regex)
  | RSeq (r1 r2 : regex).

Fixpoint RLit (s : string) : regex :=
  match s with
  | EmptyString => REps
  | String a s' => RSeq (RSet (CLit a)) (RLit s')
  end.

(** The pattern text of a regex, to compare with the source. *)
Definition cset_show (cs : cset) : string :=
  match cs with
  | CLit c => String c ""
  | CSpace => "\s"
  | CAny => "."
  end.

Fixpoint regex_show (r : regex) : string :=
  match r with
  | REps => ""
  | RSet cs => cset_show cs
  | RStar cs => cset_show cs +:+ "*"
  | RPlus cs => cset_show cs +:+ "+"
  | RGroup _ r => "(" +:+ regex_show r +:+ ")"
  | RSeq r1 r2 => regex_show r1 +:+ regex_show r2
  end.

(** Captured groups, most recent first. *)
Definition captures : Type := list (nat * string).

Fixpoint group (caps : captures) (i : nat) : string :=
  match caps with
  | [] => ""
  | (j, g) :: caps' => if (i =? j)%nat then g else group caps' i
  end.

(** The first [n] characters of [s]. *)
Fixpoint str_take (n : nat) (s : string) : string :=
  match n, s with
  | S n', String a s' => String a (str_take n' s')
  | _, _ => EmptyString
  end.

(** What was consumed between [s] and its suffix [rest]. *)
Definition consumed (s rest : string) : string :=
  str_take (String.length s - String.length rest) s.

Section Matcher.
Context {R : Type}.

(** Greedy [cs*] followed by the continuation [k]. *)
Fixpoint star (cs : cset) (k : string → option R) (s : string) : option R :=
  match s with
  | String a s' =>
      if cset_mem cs a then
        match star cs k s' with
        | Some r => Some r
        | None => k s
        end
      else k s
  | EmptyString => k s
  end.

Fixpoint rmatch (r : regex) (s : string) (caps : captures)
    (k : string → captures → option R) : option R :=
  match r with
  | REps => k s caps
  | RSet cs =>
      match s with
      | String a s' => if cset_mem cs a then k s' caps else None
      | EmptyString => None
      end
  | RStar cs => star cs (λ s', k s' caps) s
  | RPlus cs =>
      match s with
      | String a s' =>
          if cset_mem cs a then star cs (λ s', k s' caps) s' else None
      | EmptyString => None
      end
  | RGroup i r' =>
      rmatch r' s caps (λ s' caps', k s' ((i, consumed s s') :: caps'))
  | RSeq r1 r2 =>
      rmatch r1 s caps (λ s' caps', rmatch r2 s' caps' k)
  end.
End Matcher.

(** The strings that a regex matches, with the captures before and after:
    the declarative counterpart of [rmatch]. *)
Inductive matches : regex → string → captures → captures → Prop :=
  | matches_eps c : matches REps "" c c
  | matches_set cs a c :
      cset_mem cs a = true → matches (RSet cs) (String a "") c c
  | matches_star cs m c :
      str_all (cset_mem cs) m = true → matches (RStar cs) m c c
  | matches_plus cs a m c :
      cset_mem cs a = true → str_all (cset_mem cs) m = true →
      matches (RPlus cs) (String a m) c c
  | matches_group i r m c c' :
      matches r m c c' → matches (RGroup i r) m c ((i, m) :: c')
  | matches_seq r1 r2 m1 m2 c0 c1 c2 :
      matches r1 m1 c0 c1 → matches r2 m2 c1 c2 →
      matches (RSeq r1 r2) (m1 +:+ m2) c0 c2.

(** [pattern.match(s)]: the captures and the text after the match. *)
Definition match_here (r : regex) (s : string) : option (captures * string) :=
  rmatch r s [] (λ rest caps, Some (caps, rest)).

(** Replacement templates: literal text and group references [\i]. *)
Inductive titem : Type :=
  | TLit (s : string)
  | TRef (i : nat).

Definition titem_show (t : titem) : string :=
  match t with
  | TLit s => s
  | TRef i => "\" +:+ pretty i
  end.

Definition template_show (t : list titem) : string :=
  foldr (λ x acc, titem_show x +:+ acc) "" t.

Fixpoint expand (t : list titem) (caps : captures) : string :=
  match t with
  | [] => ""
  | TLit s :: t' => s +:+ expand t' caps
  | TRef i :: t' => group caps i +:+ expand t' caps
  end.

(** [re.sub(r, repl, s)]: the leftmost match is replaced and the scan goes
    on after it.  [skip] counts the characters of the current match that
    are still to be passed over.  After an empty match the next character
    is copied, as [re] does since Python 3.7. *)
Fixpoint sub_scan (r : regex) (repl : list titem) (skip : nat) (s : string)
    : string :=
  match skip with
  | S n =>
      match s with
      | String _ s' => sub_scan r repl n s'
      | EmptyString => EmptyString
      end
  | O =>
      match match_here r s with
      | Some (caps, rest) =>
          expand repl caps +:+
          match s with
          | String a s' =>
              if (String.length rest <? String.length s)%nat
              then sub_scan r repl (String.length s' - String.length rest) s'
              else String a (sub_scan r repl 0 s')
          | EmptyString => EmptyString
          end
      | None =>
          match s with
          | String a s' => String a (sub_scan r repl 0 s')
          | EmptyString => EmptyString
          end
      end
  end.

Definition re_sub (r : regex) (repl : list titem) (s : string) : string :=
  sub_scan r repl 0 s.

(** The pattern and the replacement that [main] passes to [re.sub]; the two
    examples below print them back in the syntax of the source. *)
Definition import_tail : regex :=
  RSeq (RPlus CSpace)
    (RSeq (RLit "import ")
      (RSeq (RGroup 2 (RStar CAny))
        (RLit "pb2"))).

Definition import_re : regex :=
  RSeq (RLit "from")
    (RSeq (RPlus CSpace)
      (RSeq (RGroup 1 (RStar CAny))
        import_tail)).

Definition import_repl : list titem :=
  [TLit "from xray_rpc."; TRef 1; TLit " import "; TRef 2; TLit "pb2"].

Definition rewrite_code (code : string) : string :=
  re_sub import_re import_repl code.

Definition NL : string := String LF "".

(** ** Python values that cross the program's interfaces *)

#[local] Set Warnings "-register-all".

(** What [Response.json()] returns.  A dict is the list of its items; its
    keys are distinct. *)
Inductive json : Type :=
  | JNull
  | JBool (b : bool)
  | JNum (n : Z)
  | JStr (s : string)
  | JList (l : list json)
  | JDict (d : list (string * json)).

Fixpoint dict_get (d : list (string * json)) (key : string) : option json :=
  match d with
  | [] => None
  | (k, v) :: d' => if String.eqb k key then Some v else dict_get d' key
  end.

Inductive exn_class : Type :=
  | HTTPError            (* httpx: transport and protocol errors *)
  | JSONDecodeError
  | KeyError
  | TypeError
  | AttributeError
  | FileNotFoundError    (* the next five are subclasses of OSError *)
  | FileExistsError
  | IsADirectoryError
  | NotADirectoryError
  | PermissionError
  | BadZipFile
  | TimeoutExpired
  | KeyboardInterrupt.   (* a BaseException that is not an Exception *)

Record exn : Type := Exn { exn_type : exn_class; exn_msg : string }.

(** [isinstance(e, Exception)] *)
Definition is_Exception (e : exn) : bool :=
  match exn_type e with
  | KeyboardInterrupt => false
  | _ => true
  end.

(** [isinstance(e, OSError)] *)
Definition is_OSError (e : exn) : bool :=
  match exn_type e with
  | FileNotFoundError | FileExistsError | IsADirectoryError
  | NotADirectoryError | PermissionError => true
  | _ => false
  end.

(** [httpx.Response]: the status code and the decoded body ([None] when
    the body is not JSON, in which case [json()] raises). *)
Record response : Type := Response {
  status_code : Z;
  resp_json : option json
}.

(** A streamed response: either [client.stream] raises before a response
    arrives, or the response delivers [chunks] and then ends, normally or
    with an exception raised by [iter_bytes]. *)
Inductive stream : Type :=
  | StreamFails (e : exn)
  | StreamBody (status : Z) (chunks : list string) (broken : option exn).

(** [subprocess.CompletedProcess] *)
Record completed : Type := Completed {
  returncode : Z;
  stdout : string;
  stderr : string
}.

(** [datetime.datetime] *)
Record datetime : Type := Datetime {
  year : nat; month : nat; day : nat;
  hour : nat; minute : nat; second : nat; microsecond : nat
}.

Definition pad2 (n : nat) : string :=
  if (n <? 10)%nat then "0" +:+ pretty n else pretty n.

(** [d.strftime('%Y%m%d%H%M')], for years of four digits. *)
Definition strftime_YmdHM (d : datetime) : string :=
  pretty (year d) +:+ pad2 (month d) +:+ pad2 (day d)
  +:+ pad2 (hour d) +:+ pad2 (minute d).

(** ** Paths and the file system *)

Abbreviation path := (list string).

(** The components that pathlib keeps of a name: the name is cut at every
    slash; empty pieces and [.] are dropped, [..] stays. *)
Definition kept_by_pathlib (c : string) : bool :=
  negb (String.eqb c "") && negb (String.eqb c ".").

Definition name_parts (name : string) : list string :=
  List.filter kept_by_pathlib (split_char "/" name).

(** [p / name]: the components of [name] are added to those of [p]; a
    [name] that starts with a slash takes the place of [p].  (The root
    written with two slashes is read as the root.) *)
Definition path_div (p : path) (name : string) : path :=
  if startswith name "/" then name_parts name else p ++ name_parts name.
Infix "/:" := path_div (at level 40, left associativity).

(** [p.parent] *)
Definition parent (p : path) : path := removelast p.

(** [str(p)] *)
Definition path_str (p : path) : string :=
  match p with
  | [] => "/"
  | _ => foldr (λ c acc, "/" +:+ c +:+ acc) "" p
  end.

Inductive node : Type :=
  | File (content : string)
  | Dir.

#[global] Instance node_eq_dec : EqDecision node.
Proof. solve_decision. Defined.

(** [p.exists()] *)
Definition fs_exists (f : gmap path node) (p : path) : bool :=
  match f !! p with
  | Some _ => true
  | None => false
  end.

Definition is_dir (f : gmap path node) (p : path) : bool :=
  match f !! p with
  | Some Dir => true
  | _ => false
  end.

(** [q] is [p] or lies below it. *)
Definition under (p q : path) : bool := bool_decide (p `prefix_of` q).

(** Glob patterns of the form [*suffix] on the last component. *)
Definition name_matches (suffix : string) (q : path) : bool :=
  match last q with
  | Some name => endswith name suffix
  | None => false
  end.

(** [p.rglob("*" + suffix)]: every entry strictly below [p] whose name ends
    with [suffix]; nothing when [p] is not a directory.  Python leaves the
    order to the operating system; here it is the order of the map. *)
Definition rglob (f : gmap path node) (p : path) (suffix : string) : list path :=
  if is_dir f p then
    filter (λ q, under p q && negb (bool_decide (q = p)) && name_matches suffix q = true)
           (map fst (map_to_list f))
  else [].

(** ** The world: files, log records and calls to the outside *)

Inductive level : Type := INFO | WARNING | ERROR.

Inductive event : Type :=
  | EvGet (url : string)            (* client.get *)
  | EvStream (url : string)         (* client.stream *)
  | EvSystem (command : string)     (* os.system *)
  | EvRun (args : list string).     (* subprocess.run *)

Record world : Type := World {
  fs : gmap path node;
  log : list (level * string);
  trace : list event
}.

(** A member of a zip archive: its name in the archive and its data.  A
    name that ends in a slash is a directory entry. *)
Definition zip_member : Type := (string * string)%type.

(** The environment of one run.  The answers of the network may depend on
    the calls made so far. *)
Record env : Type := Env {
  http_get : list event → string → exn + response;
  http_stream : list event → string → stream;
  os_system : string → gmap path node → Z * gmap path node;
  subprocess_run : list string → gmap path node → exn + completed;
  zip_read : string → exn + list zip_member;   (* decodes an archive *)
  datetime_now : datetime;
  sys_executable : string;
  script_dir : path;                 (* Path(__file__).parent *)
  home : path;                       (* Path.home() *)
  py_repr : json → string            (* str(v) for a v that is not a str *)
}.

Definition py_str (E : env) (v : json) : string :=
  match v with
  | JStr s => s
  | _ => py_repr E v
  end.

(** ** Computations that may raise *)

Inductive outcome (A : Type) : Type :=
  | Ret (a : A)
  | Raise (e : exn).
Arguments Ret {A} a.
Arguments Raise {A} e.

Definition M (A : Type) : Type := world → outcome A * world.

Definition ret {A} (a : A) : M A := λ w, (Ret a, w).
Definition raise {A} (e : exn) : M A := λ w, (Raise e, w).
Definition bind {A B} (m : M A) (k : A → M B) : M B :=
  λ w, match m w with
       | (Ret a, w') => k a w'
       | (Raise e, w') => (Raise e, w')
       end.

Notation "'do' x <- m ; k" := (bind m (λ x, k))
  (at level 10, x name, m at level 100, k at level 200).
Notation "m ;; k" := (bind m (λ _, k))
  (at level 100, k at level 200, right associativity).

(** [try: m  except C as e: h e], where [handles] decides [isinstance(e, C)]. *)
Definition try_except {A} (m : M A) (handles : exn → bool) (h : exn → M A) : M A :=
  λ w, match m w with
       | (Raise e, w') => if handles e then h e w' else (Raise e, w')
       | r => r
       end.

Definition get_fs : M (gmap path node) := λ w, (Ret (fs w), w).
Definition put_fs (f : gmap path node) : M unit :=
  λ w, (Ret tt, World f (log w) (trace w)).
Definition get_trace : M (list event) := λ w, (Ret (trace w), w).
Definition emit (e : event) : M unit :=
  λ w, (Ret tt, World (fs w) (log w) (trace w ++ [e])).
Definition logger (l : level) (msg : string) : M unit :=
  λ w, (Ret tt, World (fs w) (log w ++ [(l, msg)]) (trace w)).

Fixpoint for_each {A} (l : list A) (body : A → M unit) : M unit :=
  match l with
  | [] => ret tt
  | x :: l' => body x;; for_each l' body
  end.

(** *** File operations *)

Definition FileNotFound (p : path) : exn :=
  Exn FileNotFoundError ("No such file or directory: " +:+ path_str p).
Definition FileExists (p : path) : exn :=
  Exn FileExistsError ("File exists: " +:+ path_str p).
Definition IsADirectory (p : path) : exn :=
  Exn IsADirectoryError ("Is a directory: " +:+ path_str p).
Definition NotADirectory (p : path) : exn :=
  Exn NotADirectoryError ("Not a directory: " +:+ path_str p).

(** [p.mkdir(mode=0o755)], without [parents] and [exist_ok].  Permission
    bits are not part of the model. *)
Definition mkdir (p : path) : M unit :=
  do f <- get_fs;
  match f !! p with
  | Some _ => raise (FileExists p)
  | None =>
      match f !! parent p with
      | Some Dir => put_fs (<[p := Dir]> f)
      | Some (File _) => raise (NotADirectory p)
      | None => raise (FileNotFound p)
      end
  end.

(** [shutil.rmtree(path=p, ignore_errors=True)]: a directory goes with all
    that is below it; on anything else the error is swallowed and nothing
    is removed. *)
Definition rmtree_ignore_errors (p : path) : M unit :=
  do f <- get_fs;
  if is_dir f p then put_fs (filter (λ kv, ¬ p `prefix_of` kv.1) f)
  else ret tt.

(** [open(p, "wb")]: the file is created or truncated. *)
Definition open_wb (p : path) : M unit :=
  do f <- get_fs;
  match f !! p with
  | Some Dir => raise (IsADirectory p)
  | _ =>
      match f !! parent p with
      | Some Dir => put_fs (<[p := File ""]> f)
      | Some (File _) => raise (NotADirectory p)
      | None => raise (FileNotFound p)
      end
  end.

(** [f.write(chunk)] on a file opened by [open_wb]. *)
Definition write (p : path) (chunk : string) : M unit :=
  do f <- get_fs;
  match f !! p with
  | Some (File c) => put_fs (<[p := File (c +:+ chunk)]> f)
  | _ => ret tt
  end.

(** [open(p, "r+")] followed by [f.read()]. *)
Definition read_text (p : path) : M string :=
  do f <- get_fs;
  match f !! p with
  | Some (File c) => ret c
  | Some Dir => raise (IsADirectory p)
  | None => raise (FileNotFound p)
  end.

(** [f.seek(0); f.write(text); f.truncate()] *)
Definition overwrite (p : path) (text : string) : M unit :=
  do f <- get_fs;
  put_fs (<[p := File text]> f).

(** *** Calls to the outside *)

Definition client_get (E : env) (url : string) : M response :=
  do h <- get_trace;
  emit (EvGet url);;
  match http_get E h url with
  | inl e => raise e
  | inr r => ret r
  end.

Definition client_stream (E : env) (url : string) : M stream :=
  do h <- get_trace;
  emit (EvStream url);;
  ret (http_stream E h url).

Definition system (E : env) (command : string) : M Z :=
  do f <- get_fs;
  emit (EvSystem command);;
  let '(code, f') := os_system E command f in
  put_fs f';;
  ret code.

Definition run (E : env) (args : list string) : M completed :=
  do f <- get_fs;
  emit (EvRun args);;
  match subprocess_run E args f with
  | inl e => raise e
  | inr p => ret p
  end.

(** [req.json()] *)
Definition response_json (r : response) : M json :=
  match resp_json r with
  | Some v => ret v
  | None => raise (Exn JSONDecodeError "Expecting value")
  end.

(** [result["tag_name"]] *)
Definition subscript (v : json) (key : string) : M json :=
  match v with
  | JDict d =>
      match dict_get d key with
      | Some x => ret x
      | None => raise (Exn KeyError key)
      end
  | _ => raise (Exn TypeError "object is not subscriptable by str")
  end.

(** [v.replace('v', '')]: only a [str] has the method. *)
Definition replace_v (v : json) : M string :=
  match v with
  | JStr s => ret (replace_char "v" "" s)
  | _ => raise (Exn AttributeError "object has no attribute 'replace'")
  end.

(** ** [compile.py] *)

Definition XRAY_GITHUB_USER : string := "XTLS".
Definition XRAY_GITHUB_REPO : string := "Xray-core".

Definition releases_latest_url : string :=
  "https://api.github.com/repos/" +:+ XRAY_GITHUB_USER +:+ "/"
  +:+ XRAY_GITHUB_REPO +:+ "/releases/latest".

(** The body of the [for chunk in resp.iter_bytes()] loop and its end. *)
Fixpoint write_chunks (target : path) (chunks : list string)
    (broken : option exn) : M unit :=
  match chunks with
  | c :: chunks' => write target c;; write_chunks target chunks' broken
  | [] =>
      match broken with
      | Some e => raise e
      | None => ret tt
      end
  end.

Definition download (E : env) (url : string) (target : path) : M bool :=
  open_wb target;;
  try_except
    (do resp <- client_stream E url;
     match resp with
     | StreamFails e => raise e
     | StreamBody _ chunks broken =>
         logger INFO ("下载 " +:+ url +:+ " 开始......");;
         write_chunks target chunks broken;;
         logger INFO ("从 " +:+ url +:+ " 下载文件到 " +:+ path_str target +:+ " 成功");;
         ret true
     end)
    is_Exception
    (λ e,
       logger ERROR ("从 " +:+ url +:+ " 下载文件到 " +:+ path_str target
                     +:+ " 失败，" +:+ exn_msg e);;
       ret false).

(** [class XrayFile]; the fields [platform] and [arch] are never read. *)
Record XrayFile : Type := MkXrayFile {
  xf_path : path;
  use_cdn : bool
}.

Definition XrayFile_init (E : env) (install_path : option path) (cdn : bool)
    : XrayFile :=
  match install_path with
  | None => MkXrayFile (home E /: "xray-node") cdn
  | Some p => MkXrayFile p cdn
  end.

Definition xray_install_path (x : XrayFile) : path := xf_path x.
Definition xray_zip_fn (x : XrayFile) : path := xf_path x /: "xray-core.zip".

(** The format string of the download URL, as the text before and after
    the field [{tag}]. *)
Definition xray_src_download_url_fmt (x : XrayFile) : string * string :=
  if use_cdn x then
    ("https://download.fastgit.org/" +:+ XRAY_GITHUB_USER +:+ "/"
     +:+ XRAY_GITHUB_REPO +:+ "/archive/refs/tags/", ".zip")
  else
    ("https://github.com/" +:+ XRAY_GITHUB_USER +:+ "/"
     +:+ XRAY_GITHUB_REPO +:+ "/archive/refs/tags/", ".zip").

(** [fmt.format(tag=v)] *)
Definition format_tag (E : env) (fmt : string * string) (v : json) : string :=
  fmt.1 +:+ py_str E v +:+ fmt.2.

(** [os.makedirs(p)], on the components of [p] last first: the parent is
    made first when it does not exist, then [p] itself. *)
Definition is_FileExistsError (e : exn) : bool :=
  match exn_type e with
  | FileExistsError => true
  | _ => false
  end.

Fixpoint makedirs_rev (r : list string) : M unit :=
  match r with
  | [] => mkdir []
  | c :: r' =>
      do f <- get_fs;
      (if negb (fs_exists f (rev r'))
       then try_except (makedirs_rev r') is_FileExistsError (λ _, ret tt)
       else ret tt);;
      mkdir (rev r' ++ [c])
  end.

Definition makedirs (p : path) : M unit := makedirs_rev (rev p).

(** The components that [ZipFile.extract] keeps of a member name: the name
    is cut at every slash; empty pieces, [.] and [..] are dropped. *)
Definition kept_by_zipfile (c : string) : bool :=
  negb (String.eqb c "") && negb (String.eqb c ".") && negb (String.eqb c "..").

Definition member_parts (name : string) : list string :=
  List.filter kept_by_zipfile (split_char "/" name).

(** [ZipFile.getinfo(name)]: of several members with one name the last
    one is found. *)
Fixpoint getinfo (members : list zip_member) (name : string)
    : option zip_member :=
  match members with
  | [] => None
  | m :: members' =>
      match getinfo members' name with
      | Some x => Some x
      | None => if String.eqb m.1 name then Some m else None
      end
  end.

(** [ZipFile._extract_member(m, dir)]: the directories above the target
    are made when they are missing; a directory entry is made unless it is
    there, a file entry is written over what is there. *)
Definition extract_member (dir : path) (m : zip_member) : M unit :=
  let targetpath := dir ++ member_parts m.1 in
  let upperdirs := parent targetpath in
  do f <- get_fs;
  (if negb (fs_exists f upperdirs) then makedirs upperdirs else ret tt);;
  if endswith m.1 "/" then
    do f <- get_fs;
    if is_dir f targetpath then ret tt else mkdir targetpath
  else
    open_wb targetpath;;
    write targetpath m.2.

(** [zip_file.extract(name, dir)] *)
Definition extract (members : list zip_member) (dir : path) (name : string)
    : M unit :=
  match getinfo members name with
  | Some m => extract_member dir m
  | None => raise (Exn KeyError name)
  end.

Definition _unzip_xray_core (E : env) (xray_f : XrayFile) : M bool :=
  do f <- get_fs;
  match f !! xray_zip_fn xray_f with
  | Some node =>
      match node with
      | Dir => raise (IsADirectory (xray_zip_fn xray_f))
      | File data =>
          match zip_read E data with
          | inl e => raise e
          | inr members =>
              for_each (map fst members)
                (extract members (parent (xray_zip_fn xray_f)));;
              ret true
          end
      end
  | None =>
      logger WARNING (path_str (xray_zip_fn xray_f) +:+ " 不存在");;
      ret false
  end.

Definition _get_latest_xray_release (E : env) : M json :=
  do req <- client_get E releases_latest_url;
  if negb (status_code req =? 200) then
    logger ERROR ("获取 xray-core 最新 release 版本失败，状态码 "
                  +:+ pretty (status_code req));;
    ret (JStr "")
  else
    do result <- response_json req;
    do latest_tag <- subscript result "tag_name";
    ret latest_tag.

Definition _download_xray_zip (E : env) (xray_f : XrayFile) : M bool :=
  try_except
    (do req <- client_get E releases_latest_url;
     if negb (status_code req =? 200) then
       logger ERROR ("获取 xray-core 最新 release 版本失败，状态码 "
                     +:+ pretty (status_code req));;
       ret false
     else
       do result <- response_json req;
       do latest_tag <- subscript result "tag_name";
       do download_success <-
         download E (format_tag E (xray_src_download_url_fmt xray_f) latest_tag)
                  (xray_zip_fn xray_f);
       if download_success then
         logger INFO "下载 xray-core 成功";;
         ret true
       else ret false)
    is_Exception
    (λ e, logger ERROR ("下载 xray-core 失败，" +:+ exn_msg e);; ret false).

Definition _prepare_install (xray_f : XrayFile) : M bool :=
  try_except
    (do f <- get_fs;
     (if negb (fs_exists f (xray_install_path xray_f))
      then mkdir (xray_install_path xray_f)
      else ret tt);;
     ret true)
    is_OSError
    (λ e, logger ERROR ("创建 xray-node 目录失败，" +:+ exn_msg e);; ret false).

Definition install_xray (E : env) (install_path : option path) (cdn : bool)
    : M bool :=
  let p := match install_path with
           | None => home E /: "xray-node"
           | Some p => p
           end in
  let xray_file := XrayFile_init E (Some p) cdn in
  do ready <- _prepare_install xray_file;
  if negb ready then ret false
  else
    do downloaded <- _download_xray_zip E xray_file;
    do ok <- (if downloaded then _unzip_xray_core E xray_file else ret false);
    if ok then
      logger INFO ("成功安装 xray-core 至 "
                   +:+ path_str (xray_install_path xray_file));;
      ret true
    else ret false.

Definition protoc_command (E : env) (src dst : path) (all_files : list string)
    : string :=
  sys_executable E +:+ " -m grpc.tools.protoc "
  +:+ "-I=" +:+ path_str src +:+ " "
  +:+ "--python_out=" +:+ path_str dst +:+ " "
  +:+ "--grpc_python_out=" +:+ path_str dst +:+ " " +:+ join " " all_files.

Definition gen_pb2 (E : env) (src dst : path) : M Z :=
  rmtree_ignore_errors dst;;
  mkdir dst;;
  do f <- get_fs;
  let all_files := map path_str (rglob f src ".proto") in
  do result <- system E (protoc_command E src dst all_files);
  ret result.

(** [main], lines 228 to 233: the loop over the generated modules. *)
Definition rewrite_file (py : path) : M unit :=
  do code <- read_text py;
  overwrite py (rewrite_code code).

Definition rewrite_imports (dst_path : path) : M unit :=
  do f <- get_fs;
  for_each (rglob f dst_path ".py") rewrite_file.

(** [main], lines 235 to 250: the package version follows the release. *)
Definition new_version (E : env) (numeric : string) : string :=
  numeric +:+ "." +:+ strftime_YmdHM (datetime_now E).

Definition sync_version (E : env) (latest_version : json) : M unit :=
  do p <- run E ["poetry"; "version"; "-s"];
  let current_pypi_version := strip (stdout p) in
  do numeric <- replace_v latest_version;
  if startswith current_pypi_version numeric then
    logger INFO ("当前 PyPi 版本 " +:+ current_pypi_version +:+ " 与 xray-core 版本 "
                 +:+ py_str E latest_version +:+ " 相同，附加小版本");;
    logger INFO (new_version E numeric);;
    system E ("poetry version " +:+ new_version E numeric);;
    ret tt
  else
    logger INFO ("当前 PyPi 版本 " +:+ current_pypi_version +:+ " 与 xray-core 版本 "
                 +:+ py_str E latest_version +:+ " 不同，跟进 xray-core 版本");;
    system E ("poetry version " +:+ numeric);;
    ret tt.

Definition main (E : env) : M unit :=
  let path := script_dir E /: "xray_download" in
  install_xray E (Some path) true;;
  do latest_version <- _get_latest_xray_release E;
  logger INFO ("xray-core 最新版本为 " +:+ py_str E latest_version);;
  do numeric <- replace_v latest_version;
  let src_path := path /: ("Xray-core-" +:+ numeric) in
  let dst_path := script_dir E /: "xray_rpc" in
  do f <- get_fs;
  if fs_exists f src_path then
    gen_pb2 E src_path dst_path;;
    logger INFO ("成功生成 RPC 至 " +:+ path_str dst_path +:+ " 路径下");;
    rewrite_imports dst_path;;
    sync_version E latest_version
  else
    logger ERROR (path_str src_path +:+ " 不存在").

(** ** Vocabulary of the statements about the import rewrite *)

(** A pb2 import statement with module path [Y]: the imported name is
    [X ++ "pb2" ++ T]. *)
Definition import_stmt (Y X T : string) : string :=
  "from " +:+ Y +:+ " import " +:+ X +:+ "pb2" +:+ T.

(** The blank is the only white space that [a] may be. *)
Definition plain_blank (a : ascii) : bool :=
  negb (is_space a) || Ascii.eqb a " ".

(** [Y] is a non-empty module path without white space; the rest of the
    line has no white space but blanks and no further [from]. *)
Definition is_pb2_import (Y X T : string) : bool :=
  negb (String.eqb Y "")
  && str_all (λ a, negb (is_space a)) Y
  && str_all plain_blank (X +:+ "pb2" +:+ T)
  && negb (contains "from" (X +:+ "pb2" +:+ T)).

(** [post] is what follows a complete line: nothing, or a line feed first. *)
Definition ends_line (post : string) : bool :=
  match post with
  | EmptyString => true
  | String a _ => Ascii.eqb a LF
  end.

(** The next text that is not white space is an [import] statement. *)
Definition next_is_import (post : string) : bool :=
  startswith (lstrip post) "import ".

(** The pattern matches somewhere in [s]. *)
Fixpoint has_match (s : string) : bool :=
  match match_here import_re s with
  | Some _ => true
  | None =>
      match s with
      | String _ s' => has_match s'
      | EmptyString => false
      end
  end.

(** *** Files as lines *)

Inductive line : Type :=
  | Import (Y X T : string)    (* a pb2 import statement *)
  | Other (text : string).     (* any other line *)

Definition line_text (l : line) : string :=
  match l with
  | Import Y X T => import_stmt Y X T
  | Other text => text
  end.

(** The text of a file from its lines, as [text.split("\n")] gives them:
    a text that ends in a line feed has an empty last line. *)
Definition file_text (ls : list line) : string :=
  join NL (map line_text ls).

Definition prefixed (l : line) : line :=
  match l with
  | Import Y X T => Import ("xray_rpc." +:+ Y) X T
  | Other text => Other text
  end.

(** A line that is no pb2 import statement and in which no match of the
    pattern begins: it has no [from]; or it has no [pb2], does not end
    in [from] (white space apart), and the next text that is not white
    space is no [import] statement. *)
Definition other_ok (text after : string) : bool :=
  str_all (cset_mem CAny) text
  && (negb (contains "from" text)
      || negb (contains "pb2" text)
         && negb (endswith (rstrip text) "from")
         && negb (next_is_import after)).

(** Every line is a line of one of the two kinds, and no pb2 import
    statement is followed by an [import] statement.  [file_text ls'] is
    the text after the line feed of the line. *)
Fixpoint lines_ok (ls : list line) : bool :=
  match ls with
  | [] => true
  | l :: ls' =>
      match l with
      | Import Y X T =>
          is_pb2_import Y X T && negb (next_is_import (file_text ls'))
      | Other text => other_ok text (file_text ls')
      end
      && lines_ok ls'
  end.

(** ** The claims of the specification that the code does not keep,
    in the words of the specification *)

(** "A single application of the import rewrite to a file containing the
    line [from foo.bar import baz_pb2_grpc] produces a file containing
    [from xray_rpc.foo.bar import baz_pb2_grpc]." *)
Definition rewrite_prefixes_line (code : string) : Prop :=
  "from foo.bar import baz_pb2_grpc" ∈ split_char LF code →
  contains "from xray_rpc.foo.bar import baz_pb2_grpc" (rewrite_code code) = true.



(** "Applying the rewrite substitution twice yields the same content as
    applying it once." *)
Definition rewrite_idempotent_on (code : string) : Prop :=
  rewrite_code (rewrite_code code) = rewrite_code code.

(** "If the install step returns false, no later stage executes in that
    run": the compiler and the version command are not called. *)
Definition later_stage (e : event) : bool :=
  match e with
  | EvSystem _ | EvRun _ => true
  | _ => false
  end.

Definition failed_install_aborts (E : env) (w : world) : Prop :=
  (install_xray E (Some (script_dir E /: "xray_download")) true w).1 = Ret false →
  existsb later_stage (trace (main E w).2) = false.

(** "If the GET request raises a transport error, the locator returns an
    empty string rather than propagating an exception." *)
Definition locator_swallows_transport_error (E : env) (w : world) : Prop :=
  ∀ e, http_get E (trace w) releases_latest_url = inl e →
       (_get_latest_xray_release E w).1 = Ret (JStr "").

(** ** Vocabulary of the statements about the entry point *)

(** The name of the directory of the sources of release [tag]. *)
Definition src_name (tag : string) : string :=
  "Xray-core-" +:+ replace_char "v" "" tag.

(** No component of the name is [..]. *)
Definition no_parent_step (name : string) : bool :=
  forallb (λ c, negb (String.eqb c "..")) (name_parts name).

(** What [gen_pb2] makes of the file system before it starts the
    compiler: the destination is removed with all that is below it, and
    made anew. *)
Definition recreated (f : gmap path node) (dst : path) : gmap path node :=
  <[dst := Dir]>
    (if is_dir f dst then filter (λ kv, ¬ dst `prefix_of` kv.1) f else f).

(** ** Vocabulary of the statements about files *)

(** The chunks of a body, one after the other. *)
Definition joined (chunks : list string) : string :=
  foldr String.append "" chunks.

(** Every entry but the root lies in a directory. *)
Definition tree_shaped (f : gmap path node) : Prop :=
  map_Forall (λ q _, q = [] ∨ f !! parent q = Some Dir) f.

(** [open(target, "wb")] succeeds. *)
Definition writable (f : gmap path node) (target : path) : Prop :=
  f !! target ≠ Some Dir ∧ f !! parent target = Some Dir.

#[global] Instance tree_shaped_dec f : Decision (tree_shaped f).
Proof. unfold tree_shaped. apply _. Defined.

#[global] Instance writable_dec f p : Decision (writable f p).
Proof. unfold writable. apply _. Defined.

(** A name that an entry may have: not empty, not [.] or [..], and
    without a slash. *)
Definition safe_name (c : string) : bool :=
  kept_by_zipfile c && negb (contains "/" c).

(** [q] is [dir] followed by such names. *)
Definition inside (dir q : path) : Prop :=
  ∃ comps, q = dir ++ comps ∧ forallb safe_name comps = true.

(** From [f] to [f'] the tree is kept, no entry is removed, and nothing
    changes but inside [dir]. *)
Definition built_in (dir : path) (f f' : gmap path node) : Prop :=
  tree_shaped f' ∧
  (∀ q, is_Some (f !! q) → is_Some (f' !! q)) ∧
  (∀ q, ¬ inside dir q → f' !! q = f !! q).

(** [m] builds inside [dir], on every tree; on every tree in which [dir]
    exists. *)
Definition builds_in {A} (dir : path) (m : M A) : Prop :=
  ∀ w, tree_shaped (fs w) → built_in dir (fs w) (fs (m w).2).

Definition builds_in_existing {A} (dir : path) (m : M A) : Prop :=
  ∀ w, tree_shaped (fs w) → is_Some (fs w !! dir) →
       built_in dir (fs w) (fs (m w).2).

(** ** Sample environments and worlds *)

Definition sample_env (get : exn + response) (body : stream) (poetry_out : string)
    : env :=
  {| http_get := λ _ _, get;
     http_stream := λ _ _, body;
     os_system := λ _ f, (0, f);
     subprocess_run := λ _ _, inr (Completed 0 poetry_out "");
     zip_read := λ _, inr [];
     datetime_now := Datetime 2024 5 17 9 30 12 0;
     sys_executable := "/usr/bin/python3";
     script_dir := ["repo"];
     home := ["home"];
     py_repr := λ _, "" |}.

Definition release (tag : string) : exn + response :=
  inr (Response 200 (Some (JDict [("tag_name", JStr tag)]))).

Definition connect_error : exn := Exn HTTPError "connection refused".

(** A checkout with nothing downloaded yet. *)
Definition fresh_world : world :=
  World {[ [] := Dir; ["repo"] := Dir ]} [] [].

(** A checkout with the sources of release v1.0.0 left by an earlier run. *)
Definition stale_world : world :=
  World {[ [] := Dir; ["repo"] := Dir;
           ["repo"; "xray_download"] := Dir;
           ["repo"; "xray_download"; "Xray-core-1.0.0"] := Dir;
           ["repo"; "xray_rpc"] := Dir;
           ["repo"; "xray_rpc"; "old_pb2.py"] := File "from a import b_pb2" ]}
        [] [].

(** Variants of an environment, for the zip decoder and [subprocess.run]. *)
Definition with_zip_read (E : env) (z : string → exn + list zip_member) : env :=
  {| http_get := http_get E;
     http_stream := http_stream E;
     os_system := os_system E;
     subprocess_run := subprocess_run E;
     zip_read := z;
     datetime_now := datetime_now E;
     sys_executable := sys_executable E;
     script_dir := script_dir E;
     home := home E;
     py_repr := py_repr E |}.

Definition with_subprocess_run (E : env)
    (r : list string → gmap path node → exn + completed) : env :=
  {| http_get := http_get E;
     http_stream := http_stream E;
     os_system := os_system E;
     subprocess_run := r;
     zip_read := zip_read E;
     datetime_now := datetime_now E;
     sys_executable := sys_executable E;
     script_dir := script_dir E;
     home := home E;
     py_repr := py_repr E |}.

(** * Properties *)

(** ** Strings *)

Lemma app_nil_r_str s : s +:+ "" = s.
Proof. induction s; simpl; congruence. Qed.

Lemma app_assoc_str a b c : (a +:+ b) +:+ c = a +:+ b +:+ c.
Proof. induction a; simpl; congruence. Qed.

Lemma length_app_str a b :
  String.length (a +:+ b) = (String.length a + String.length b)%nat.
Proof. induction a; simpl; congruence. Qed.

Lemma app_inv_head_str a b c : a +:+ b = a +:+ c → b = c.
Proof. induction a; simpl; [done | intros [=]; auto]. Qed.

Lemma str_all_app p a b : str_all p (a +:+ b) = str_all p a && str_all p b.
Proof. induction a; simpl; [done | rewrite IHa; by destruct (p _)]. Qed.

(** Two ways of cutting one string differ by a middle piece. *)
Lemma app_eq_split a b c d :
  a +:+ b = c +:+ d →
  ∃ e, (c = a +:+ e ∧ b = e +:+ d) ∨ (a = c +:+ e ∧ d = e +:+ b).
Proof.
  revert c. induction a as [|x a IH]; intros c H; simpl in *.
  - exists c. by left.
  - destruct c as [|y c]; simpl in *.
    + exists (String x a). right. by subst.
    + injection H as -> H. destruct (IH _ H) as [e [[-> ->]|[-> ->]]];
        exists e; [by left | by right].
Qed.

Lemma str_take_app a b : str_take (String.length a) (a +:+ b) = a.
Proof. induction a; simpl; [by destruct b | congruence]. Qed.

Lemma consumed_app a b : consumed (a +:+ b) b = a.
Proof.
  unfold consumed. rewrite length_app_str.
  replace (String.length a + String.length b - String.length b)%nat
    with (String.length a) by lia.
  apply str_take_app.
Qed.

Lemma startswith_app s p : startswith (p +:+ s) p = true.
Proof. induction p; simpl; [done | by rewrite Ascii.eqb_refl, IHp]. Qed.

Lemma startswith_inv s p : startswith s p = true → ∃ t, s = p +:+ t.
Proof.
  revert s. induction p as [|b p IH]; intros s H; simpl in *.
  - by exists s.
  - destruct s as [|a s]; [done|].
    apply andb_true_iff in H as [Ha H]. apply Ascii.eqb_eq in Ha as ->.
    destruct (IH _ H) as [t ->]. by exists t.
Qed.

Lemma contains_app_r needle a b :
  contains needle b = true → contains needle (a +:+ b) = true.
Proof.
  intros H. induction a as [|x a IH]; simpl; [done|].
  rewrite IH. apply orb_true_r.
Qed.

Lemma contains_startswith needle s :
  startswith s needle = true → contains needle s = true.
Proof. intros H. destruct s; simpl in *; by rewrite H. Qed.

Lemma contains_intro needle a b : contains needle (a +:+ needle +:+ b) = true.
Proof. apply contains_app_r, contains_startswith, startswith_app. Qed.

Lemma contains_suffix needle a b :
  contains needle (a +:+ b) = false → contains needle b = false.
Proof.
  intros H. destruct (contains needle b) eqn:Hb; [|done].
  by rewrite contains_app_r in H.
Qed.

(** ** The matcher *)

Section MatcherFacts.
Context {R : Type}.
Implicit Types (k : string → option R) (cs : cset).

(** What [star] returns comes from the continuation, after a run of
    members of [cs]; every longer run was tried first and failed. *)
Lemma star_sound cs k s x :
  star cs k s = Some x →
  ∃ m rest, s = m +:+ rest ∧ str_all (cset_mem cs) m = true ∧ k rest = Some x ∧
    ∀ m' rest', s = m' +:+ rest' → str_all (cset_mem cs) m' = true →
      (String.length m < String.length m')%nat → k rest' = None.
Proof.
  revert x. induction s as [|a s IH]; intros x H; simpl in H.
  - exists "", "". repeat split; [done..|].
    intros [|? ?] ? [=] _ Hlen; simpl in Hlen; lia.
  - destruct (cset_mem cs a) eqn:Ha.
    + destruct (star cs k s) as [y|] eqn:Hs.
      * injection H as ->. destruct (IH _ eq_refl) as (m & rest & -> & Hm & Hk & Hmax).
        exists (String a m), rest. simpl. rewrite Ha, Hm. repeat split; [done..|].
        intros [|b m'] rest' Heq Hall Hlen; simpl in *; [lia|].
        injection Heq as <- Heq. apply andb_true_iff in Hall as [_ Hall].
        apply (Hmax m' rest'); [done..|lia].
      * exists "", (String a s). repeat split; [done..|].
        intros [|b m'] rest' Heq Hall Hlen; simpl in *; [lia|].
        injection Heq as <- Heq. apply andb_true_iff in Hall as [_ Hall].
        clear IH Hlen. revert m' rest' Heq Hall Hs. clear.
        induction s as [|c s IH]; intros m' rest' Heq Hall Hs; simpl in *.
        -- destruct m'; [simpl in Heq; by subst | done].
        -- destruct m' as [|d m']; simpl in *; [subst rest'|].
           ++ destruct (cset_mem cs c); [by destruct (star cs k s)|done].
           ++ injection Heq as <- Heq. apply andb_true_iff in Hall as [Hc Hall].
              rewrite Hc in Hs. destruct (star cs k s) eqn:Hs'; [done|].
              by apply (IH m' rest').
    + exists "", (String a s). repeat split; [done..|].
      intros [|b m'] rest' Heq Hall Hlen; simpl in *; [lia|].
      injection Heq as <- Heq. by rewrite Ha in Hall.
Qed.

Lemma star_complete cs k m rest :
  str_all (cset_mem cs) m = true → is_Some (k rest) →
  is_Some (star cs k (m +:+ rest)).
Proof.
  induction m as [|a m IH]; intros Hall Hk; simpl in *.
  - destruct rest as [|b rest]; simpl; [done|].
    destruct (cset_mem cs b); [|done]. by destruct (star cs k rest).
  - apply andb_true_iff in Hall as [-> Hall].
    destruct (IH Hall Hk) as [x ->]. by eexists.
Qed.
End MatcherFacts.

Section RmatchFacts.
Context {R : Type}.
Implicit Types (k : string → captures → option R).

(** A result of [rmatch] is the continuation's result after a match. *)
Lemma rmatch_sound r : ∀ s caps k x,
  rmatch r s caps k = Some x →
  ∃ m rest caps', s = m +:+ rest ∧ matches r m caps caps' ∧ k rest caps' = Some x.
Proof.
  induction r as [|cs|cs|cs|i r IH|r1 IH1 r2 IH2]; intros s caps k x H; simpl in H.
  - exists "", s, caps. eauto using matches.
  - destruct s as [|a s]; [done|]. destruct (cset_mem cs a) eqn:Ha; [|done].
    exists (String a ""), s, caps. eauto using matches.
  - apply star_sound in H as (m & rest & -> & Hm & Hk & _).
    exists m, rest, caps. eauto using matches.
  - destruct s as [|a s]; [done|]. destruct (cset_mem cs a) eqn:Ha; [|done].
    apply star_sound in H as (m & rest & -> & Hm & Hk & _).
    exists (String a m), rest, caps. eauto using matches.
  - apply IH in H as (m & rest & caps' & -> & Hm & Hk).
    rewrite consumed_app in Hk.
    exists m, rest, ((i, m) :: caps'). eauto using matches.
  - apply IH1 in H as (m1 & rest1 & c1 & -> & Hm1 & Hk).
    apply IH2 in Hk as (m2 & rest & c2 & -> & Hm2 & Hk).
    exists (m1 +:+ m2), rest, c2. rewrite app_assoc_str. eauto using matches.
Qed.

(** Whenever some match lets the continuation succeed, [rmatch] succeeds
    (perhaps with another match, earlier in the order of backtracking). *)
Lemma rmatch_complete r m caps caps' :
  matches r m caps caps' →
  ∀ rest k, is_Some (k rest caps') → is_Some (rmatch r (m +:+ rest) caps k).
Proof.
  induction 1 as [c|cs a c Ha|cs m c Hm|cs a m c Ha Hm|i r m c c' _ IH
                 |r1 r2 m1 m2 c0 c1 c2 _ IH1 _ IH2]; intros rest k Hk; simpl.
  - done.
  - by rewrite Ha.
  - by apply (star_complete cs (λ s', k s' c)).
  - rewrite Ha. by apply (star_complete cs (λ s', k s' c)).
  - apply IH. by rewrite consumed_app.
  - rewrite app_assoc_str. apply IH1, IH2, Hk.
Qed.
End RmatchFacts.

(** Inversion of [matches], one lemma for each shape of regex. *)
Lemma matches_seq_inv r1 r2 m c c' :
  matches (RSeq r1 r2) m c c' →
  ∃ m1 m2 c1, m = m1 +:+ m2 ∧ matches r1 m1 c c1 ∧ matches r2 m2 c1 c'.
Proof. inversion 1; subst; eauto 10. Qed.

Lemma matches_set_inv cs m c c' :
  matches (RSet cs) m c c' → ∃ a, m = String a "" ∧ cset_mem cs a = true ∧ c' = c.
Proof. inversion 1; subst; eauto. Qed.

Lemma matches_plus_inv cs m c c' :
  matches (RPlus cs) m c c' →
  ∃ a w, m = String a w ∧ cset_mem cs a = true ∧
         str_all (cset_mem cs) w = true ∧ c' = c.
Proof. inversion 1; subst; eauto 10. Qed.

Lemma matches_group_star_inv i cs m c c' :
  matches (RGroup i (RStar cs)) m c c' →
  str_all (cset_mem cs) m = true ∧ c' = (i, m) :: c.
Proof.
  inversion 1 as [| | | |? ? ? ? ? H'|]; subst. by inversion H'; subst.
Qed.

Lemma matches_lit_inv l : ∀ m c c', matches (RLit l) m c c' → m = l ∧ c' = c.
Proof.
  induction l as [|a l IH]; intros m c c' H; simpl in H.
  - by inversion H.
  - apply matches_seq_inv in H as (m1 & m2 & c1 & -> & H1 & H2).
    apply matches_set_inv in H1 as (b & -> & Hb & ->).
    apply IH in H2 as [-> ->]. simpl in Hb. by apply Ascii.eqb_eq in Hb as ->.
Qed.

Lemma matches_lit l c : matches (RLit l) l c c.
Proof.
  induction l as [|a l IH]; simpl; [constructor|].
  change (String a l) with (String a "" +:+ l).
  econstructor; [constructor; simpl; apply Ascii.eqb_refl | done].
Qed.

(** What the two halves of the import pattern match. *)
Lemma matches_tail_inv m c c' :
  matches import_tail m c c' →
  ∃ a w g2, m = String a w +:+ "import " +:+ g2 +:+ "pb2" ∧
    is_space a = true ∧ str_all is_space w = true ∧
    str_all (cset_mem CAny) g2 = true ∧ c' = (2%nat, g2) :: c.
Proof.
  unfold import_tail. intros H.
  apply matches_seq_inv in H as (m1 & m' & c1 & -> & H1 & H).
  apply matches_plus_inv in H1 as (a & w & -> & Ha & Hw & ->).
  apply matches_seq_inv in H as (m2 & m'' & c2 & -> & H2 & H).
  apply matches_lit_inv in H2 as [-> ->].
  apply matches_seq_inv in H as (g2 & m4 & c3 & -> & H3 & H4).
  apply matches_group_star_inv in H3 as [Hg ->].
  apply matches_lit_inv in H4 as [-> ->].
  by exists a, w, g2.
Qed.

Lemma matches_tail a w g2 c :
  is_space a = true → str_all is_space w = true →
  str_all (cset_mem CAny) g2 = true →
  matches import_tail (String a w +:+ "import " +:+ g2 +:+ "pb2") c ((2%nat, g2) :: c).
Proof.
  intros Ha Hw Hg. unfold import_tail.
  eapply (matches_seq _ _ (String a w)); [by constructor|].
  eapply (matches_seq _ _ "import "); [apply matches_lit|].
  eapply (matches_seq _ _ g2 "pb2" _ ((2%nat, g2) :: c));
    [by do 2 constructor | apply matches_lit].
Qed.

Lemma matches_import_inv m c c' :
  matches import_re m c c' →
  ∃ a w g1 t, m = "from" +:+ String a w +:+ g1 +:+ t ∧
    is_space a = true ∧ str_all is_space w = true ∧
    str_all (cset_mem CAny) g1 = true ∧
    matches import_tail t ((1%nat, g1) :: c) c'.
Proof.
  unfold import_re. intros H.
  apply matches_seq_inv in H as (m1 & m' & c1 & -> & H1 & H).
  apply matches_lit_inv in H1 as [-> ->].
  apply matches_seq_inv in H as (m2 & m'' & c2 & -> & H2 & H).
  apply matches_plus_inv in H2 as (a & w & -> & Ha & Hw & ->).
  apply matches_seq_inv in H as (g1 & t & c3 & -> & H3 & H4).
  apply matches_group_star_inv in H3 as [Hg ->].
  by exists a, w, g1, t.
Qed.

Lemma matches_import a w g1 t c c' :
  is_space a = true → str_all is_space w = true →
  str_all (cset_mem CAny) g1 = true →
  matches import_tail t ((1%nat, g1) :: c) c' →
  matches import_re ("from" +:+ String a w +:+ g1 +:+ t) c c'.
Proof.
  intros Ha Hw Hg Ht. unfold import_re.
  eapply (matches_seq _ _ "from"); [apply matches_lit|].
  eapply (matches_seq _ _ (String a w)); [by constructor|].
  eapply (matches_seq _ _ g1 t _ ((1%nat, g1) :: c)); [by do 2 constructor|done].
Qed.

(** ** Characters *)

Lemma not_space_not_lf a : is_space a = false → Ascii.eqb a LF = false.
Proof. destruct (Ascii.eqb_spec a LF) as [->|]; [by vm_compute|done]. Qed.

Lemma plain_blank_not_lf a : plain_blank a = true → cset_mem CAny a = true.
Proof.
  unfold plain_blank. simpl. destruct (Ascii.eqb_spec a LF) as [->|]; [by vm_compute|done].
Qed.

Lemma plain_blank_space a : plain_blank a = true → is_space a = true → a = " "%char.
Proof.
  unfold plain_blank. intros H Ha. rewrite Ha in H. simpl in H.
  by apply Ascii.eqb_eq in H.
Qed.

Lemma str_all_impl (p q : ascii → bool) s :
  (∀ a, p a = true → q a = true) → str_all p s = true → str_all q s = true.
Proof.
  intros Hpq. induction s as [|a s IH]; simpl; [done|].
  intros [Ha Hs]%andb_true_iff. by rewrite (Hpq _ Ha), IH.
Qed.

(** A string without line feed, or its first line feed. *)
Lemma cut_lf s :
  str_all (cset_mem CAny) s = true ∨
  ∃ u v, s = u +:+ String LF v ∧ str_all (cset_mem CAny) u = true.
Proof.
  induction s as [|a s [IH|(u & v & -> & Hu)]]; simpl.
  - by left.
  - destruct (Ascii.eqb_spec a LF) as [->|Ha].
    + right. by exists "", s.
    + left. by rewrite IH.
  - destruct (Ascii.eqb_spec a LF) as [->|Ha].
    + right. by exists "", (u +:+ String LF v).
    + right. exists (String a u), v. simpl.
      destruct (Ascii.eqb_spec a LF); [done|]. by rewrite Hu.
Qed.

Lemma first_lf_unique u v u' v' :
  u +:+ String LF v = u' +:+ String LF v' →
  str_all (cset_mem CAny) u = true → str_all (cset_mem CAny) u' = true →
  u = u' ∧ v = v'.
Proof.
  revert u'. induction u as [|a u IH]; intros [|b u'] H Hu Hu'; simpl in *.
  - by injection H.
  - injection H as <- _. by rewrite Ascii.eqb_refl in Hu'.
  - injection H as -> _. by rewrite Ascii.eqb_refl in Hu.
  - injection H as <- H.
    apply andb_true_iff in Hu as [_ Hu]. apply andb_true_iff in Hu' as [_ Hu'].
    destruct (IH _ H Hu Hu') as [-> ->]. done.
Qed.

Lemma lstrip_spaces w t : str_all is_space w = true → lstrip (w +:+ t) = lstrip t.
Proof.
  induction w as [|a w IH]; simpl; [done|].
  intros [-> Hw]%andb_true_iff. auto.
Qed.

(** ** [re.sub] *)

Lemma sub_scan_0 r repl s :
  sub_scan r repl 0 s =
  match match_here r s with
  | Some (caps, rest) =>
      expand repl caps +:+
      match s with
      | String a s' =>
          if (String.length rest <? String.length s)%nat
          then sub_scan r repl (String.length s' - String.length rest) s'
          else String a (sub_scan r repl 0 s')
      | EmptyString => EmptyString
      end
  | None =>
      match s with
      | String a s' => String a (sub_scan r repl 0 s')
      | EmptyString => EmptyString
      end
  end.
Proof. by destruct s. Qed.

Lemma sub_scan_skip r repl m rest :
  sub_scan r repl (String.length m) (m +:+ rest) = sub_scan r repl 0 rest.
Proof. induction m as [|a m IH]; simpl; [done|]. apply IH. Qed.

(** A match that is not empty is replaced, and the scan goes on behind it. *)
Lemma re_sub_match r repl caps m rest :
  m ≠ "" → match_here r (m +:+ rest) = Some (caps, rest) →
  re_sub r repl (m +:+ rest) = expand repl caps +:+ re_sub r repl rest.
Proof.
  intros Hm H. unfold re_sub. rewrite sub_scan_0, H.
  destruct m as [|a m]; [done|]. simpl String.append. cbv iota. f_equal.
  simpl String.length. rewrite length_app_str.
  destruct (Nat.ltb_spec (String.length rest) (S (String.length m + String.length rest)));
    [|lia].
  replace (String.length m + String.length rest - String.length rest)%nat
    with (String.length m) by lia.
  apply sub_scan_skip.
Qed.

(** Where nothing matches, the character is copied. *)
Lemma re_sub_copy r repl a s :
  match_here r (String a s) = None →
  re_sub r repl (String a s) = String a (re_sub r repl s).
Proof. intros H. unfold re_sub. by rewrite sub_scan_0, H. Qed.

Lemma re_sub_skip r repl pre s :
  (∀ a b, pre = a +:+ b → b ≠ "" → match_here r (b +:+ s) = None) →
  re_sub r repl (pre +:+ s) = pre +:+ re_sub r repl s.
Proof.
  induction pre as [|x pre IH]; intros H; simpl; [done|].
  rewrite re_sub_copy.
  - f_equal. apply IH. intros a b -> Hb. by apply (H (String x a)).
  - by apply (H "" (String x pre)).
Qed.

(** ** Matches of the import pattern *)

(** Appends to the right, literals as constructors. *)
Ltac norm_app := repeat (rewrite app_assoc_str || (progress (simpl String.append))).

Lemma star_stop {R} cs (k : string → option R) a s :
  cset_mem cs a = false → star cs k (String a s) = k (String a s).
Proof. simpl. by intros ->. Qed.

Lemma match_import_inv s caps rest :
  match_here import_re s = Some (caps, rest) →
  ∃ a w g1 b w' g2,
    s = "from" +:+ String a w +:+ g1 +:+ String b w' +:+ "import " +:+ g2 +:+ "pb2" +:+ rest ∧
    str_all is_space (String a w) = true ∧ str_all (cset_mem CAny) g1 = true ∧
    str_all is_space (String b w') = true ∧ str_all (cset_mem CAny) g2 = true ∧
    caps = [(2%nat, g2); (1%nat, g1)].
Proof.
  unfold match_here. intros H.
  apply rmatch_sound in H as (m & rest' & caps' & -> & Hm & [= <- <-]).
  apply matches_import_inv in Hm as (a & w & g1 & t & -> & Ha & Hw & Hg1 & Ht).
  apply matches_tail_inv in Ht as (b & w' & g2 & -> & Hb & Hw' & Hg2 & ->).
  exists a, w, g1, b, w', g2. simpl str_all. rewrite Ha, Hw, Hb, Hw'.
  repeat split; try done. by norm_app.
Qed.

Lemma match_import_from s x :
  match_here import_re s = Some x → startswith s "from" = true.
Proof.
  destruct x as [caps rest]. intros H.
  apply match_import_inv in H as (a & w & g1 & b & w' & g2 & -> & _).
  apply startswith_app.
Qed.

Lemma match_import_pb2 s x :
  match_here import_re s = Some x → contains "pb2" s = true.
Proof.
  destruct x as [caps rest]. intros H.
  apply match_import_inv in H as (a & w & g1 & b & w' & g2 & -> & _).
  rewrite <- !app_assoc_str. rewrite app_assoc_str. apply contains_intro.
Qed.

(** A match never is empty. *)
Lemma match_import_shorter s caps rest :
  match_here import_re s = Some (caps, rest) →
  ∃ m, m ≠ "" ∧ s = m +:+ rest.
Proof.
  intros H. apply match_import_inv in H as (a & w & g1 & b & w' & g2 & -> & _).
  exists ("from" +:+ String a w +:+ g1 +:+ String b w' +:+ "import " +:+ g2 +:+ "pb2").
  split; [done|]. by norm_app.
Qed.

Lemma no_from_suffix pre a b :
  contains "from" pre = false → pre = a +:+ b → startswith b "from" = false.
Proof.
  intros H ->. apply contains_suffix in H.
  destruct (startswith b "from") eqn:Hb; [|done].
  by rewrite (contains_startswith _ _ Hb) in H.
Qed.

(** An occurrence of [from] that begins in [b] and ends in [s]. *)
Lemma from_straddle b s :
  b ≠ "" → startswith (b +:+ s) "from" = true → startswith b "from" = false →
  ∃ c s', s = String c s' ∧ (c = "r" ∨ c = "o" ∨ c = "m")%char.
Proof.
  intros Hb H Hn.
  destruct b as [|b1 [|b2 [|b3 [|b4 b]]]]; [done|..]; simpl in *.
  - destruct s as [|c s']; [by rewrite andb_false_r in H|].
    exists c, s'. split; [done|]. left.
    apply andb_true_iff in H as [_ H]. apply andb_true_iff in H as [H _].
    by apply Ascii.eqb_eq.
  - destruct s as [|c s']; [by rewrite !andb_false_r in H|].
    exists c, s'. split; [done|]. right; left.
    apply andb_true_iff in H as [_ H]. apply andb_true_iff in H as [_ H].
    apply andb_true_iff in H as [H _]. by apply Ascii.eqb_eq.
  - destruct s as [|c s']; [by rewrite !andb_false_r in H|].
    exists c, s'. split; [done|]. right; right.
    apply andb_true_iff in H as [_ H]. apply andb_true_iff in H as [_ H].
    apply andb_true_iff in H as [_ H]. apply andb_true_iff in H as [H _].
    by apply Ascii.eqb_eq.
  - congruence.
Qed.

(** Text without [from] is copied, unless a [from] could end in what follows. *)
Lemma rewrite_code_skip pre s :
  contains "from" pre = false →
  (∀ c s', s = String c s' → c ≠ "r" ∧ c ≠ "o" ∧ c ≠ "m")%char →
  rewrite_code (pre +:+ s) = pre +:+ rewrite_code s.
Proof.
  intros Hpre Hs. apply re_sub_skip. intros a b -> Hb.
  destruct (match_here import_re (b +:+ s)) as [x|] eqn:Hm; [|done].
  apply match_import_from in Hm.
  destruct (from_straddle b s Hb Hm (no_from_suffix _ a b Hpre eq_refl))
    as (c & s' & -> & Hc).
  destruct (Hs c s' eq_refl) as (? & ? & ?). by destruct Hc as [-> | [-> | ->]].
Qed.

Lemma rewrite_code_nil : rewrite_code "" = "".
Proof. reflexivity. Qed.

Lemma rewrite_code_id s :
  contains "from" s = false ∨ contains "pb2" s = false → rewrite_code s = s.
Proof.
  intros H.
  assert (rewrite_code (s +:+ "") = s +:+ rewrite_code "") as Hs.
  { apply re_sub_skip. intros a b -> Hb. rewrite app_nil_r_str.
    destruct (match_here import_re b) as [x|] eqn:Hm; [|done].
    destruct H as [H|H]; apply contains_suffix in H.
    - apply match_import_from, contains_startswith in Hm. congruence.
    - apply match_import_pb2 in Hm. congruence. }
  by rewrite rewrite_code_nil, !app_nil_r_str in Hs.
Qed.

(** With a module path after a single blank, the first group is all that
    the repetition has to find. *)
Lemma match_here_import_unfold y s :
  is_space y = false →
  match_here import_re ("from " +:+ String y s) =
  star CAny (λ s', rmatch import_tail s' [(1%nat, consumed (String y s) s')]
                     (λ rest caps, Some (caps, rest))) (String y s).
Proof.
  intros Hy.
  transitivity (star CSpace
    (λ s', rmatch (RSeq (RGroup 1 (RStar CAny)) import_tail) s' []
             (λ rest caps, Some (caps, rest))) (String y s)); [reflexivity|].
  by rewrite star_stop.
Qed.

Lemma tail_succeeds {R} b w g2 rest caps (k : string → captures → option R) :
  is_space b = true → str_all is_space w = true →
  str_all (cset_mem CAny) g2 = true →
  is_Some (k rest ((2%nat, g2) :: caps)) →
  is_Some (rmatch import_tail (String b w +:+ "import " +:+ g2 +:+ "pb2" +:+ rest) caps k).
Proof.
  intros Hb Hw Hg Hk.
  replace (String b w +:+ "import " +:+ g2 +:+ "pb2" +:+ rest)
    with ((String b w +:+ "import " +:+ g2 +:+ "pb2") +:+ rest) by (by norm_app).
  eapply rmatch_complete; [by apply matches_tail|done].
Qed.

(** A match that starts on a complete line stays on it, unless the next
    statement is an [import]. *)
Lemma match_stays_on_line A post d b w g2 rest :
  str_all (cset_mem CAny) A = true → ends_line post = true →
  next_is_import post = false →
  str_all (cset_mem CAny) d = true → str_all is_space (String b w) = true →
  str_all (cset_mem CAny) g2 = true →
  A +:+ post = d +:+ String b w +:+ "import " +:+ g2 +:+ "pb2" +:+ rest →
  ∃ R, rest = R +:+ post ∧
       A = d +:+ String b w +:+ "import " +:+ g2 +:+ "pb2" +:+ R.
Proof.
  intros HA Hpost Hnext Hd Hw Hg2 Heq.
  destruct post as [|c p]; simpl in Hpost.
  { exists rest. by rewrite !app_nil_r_str in *. }
  apply Ascii.eqb_eq in Hpost as ->.
  destruct (cut_lf (String b w)) as [Hbw|(u & v & Hbw & Hu)].
  - destruct (cut_lf rest) as [Hrest|(ra & rb & -> & Hra)].
    + exfalso.
      assert (str_all (cset_mem CAny) (A +:+ String LF p) = true) as Hall.
      { rewrite Heq, !str_all_app, Hd, Hbw, Hg2, Hrest. done. }
      rewrite str_all_app in Hall. simpl in Hall.
      by rewrite andb_false_r in Hall.
    + exists ra.
      replace (d +:+ String b w +:+ "import " +:+ g2 +:+ "pb2" +:+ ra +:+ String LF rb)
        with ((d +:+ String b w +:+ "import " +:+ g2 +:+ "pb2" +:+ ra) +:+ String LF rb)
        in Heq by (by norm_app).
      apply first_lf_unique in Heq as [-> ->]; [done|done|].
      by rewrite !str_all_app, Hd, Hbw, Hg2, Hra.
  - exfalso. rewrite Hbw in Heq, Hw.
    replace (d +:+ (u +:+ String LF v) +:+ "import " +:+ g2 +:+ "pb2" +:+ rest)
      with ((d +:+ u) +:+ String LF (v +:+ "import " +:+ g2 +:+ "pb2" +:+ rest))
      in Heq by (by norm_app).
    apply first_lf_unique in Heq as [_ ->]; [|done|by rewrite str_all_app, Hd, Hu].
    rewrite str_all_app in Hw. apply andb_true_iff in Hw as [_ Hw].
    simpl in Hw.
    unfold next_is_import in Hnext. simpl in Hnext.
    rewrite lstrip_spaces in Hnext by done. by simpl in Hnext.
Qed.

(** The match that [re] finds at a pb2 import statement: it ends on the
    line of the statement and leaves the text of the line as it was. *)
Lemma match_import_stmt Y X T post :
  is_pb2_import Y X T = true → ends_line post = true →
  next_is_import post = false →
  ∃ g1 g2 R,
    match_here import_re (import_stmt Y X T +:+ post)
      = Some ([(2%nat, g2); (1%nat, g1)], R +:+ post) ∧
    g1 +:+ " import " +:+ g2 +:+ "pb2" +:+ R
      = Y +:+ " import " +:+ X +:+ "pb2" +:+ T ∧
    contains "from" R = false.
Proof.
  unfold is_pb2_import. intros H Hpost Hnext.
  apply andb_true_iff in H as [H Hfrom]. apply andb_true_iff in H as [H HXT].
  apply andb_true_iff in H as [HY0 HY]. apply negb_true_iff in Hfrom.
  destruct Y as [|y Y']; [done|]. clear HY0.
  set (A := " import " +:+ X +:+ "pb2" +:+ T).
  assert (str_all plain_blank A = true) as HA.
  { unfold A. change (" import " +:+ X +:+ "pb2" +:+ T)
      with (" import " +:+ (X +:+ "pb2" +:+ T)).
    by rewrite str_all_app, HXT. }
  assert (str_all (cset_mem CAny) A = true) as HAlf
    by (eapply str_all_impl; [apply plain_blank_not_lf|done]).
  assert (contains "from" A = false) as HAfrom by (by simpl).
  assert (str_all (cset_mem CAny) (String y Y') = true) as HYlf.
  { eapply str_all_impl; [|exact HY]. simpl. intros a Ha%negb_true_iff.
    by rewrite not_space_not_lf. }
  simpl in HY. apply andb_true_iff in HY as [Hy%negb_true_iff _].
  replace (import_stmt (String y Y') X T +:+ post)
    with ("from " +:+ String y (Y' +:+ A +:+ post))
    by (unfold import_stmt, A; by norm_app).
  rewrite match_here_import_unfold by done.
  set (s2 := String y (Y' +:+ A +:+ post)).
  set (K2 := λ s', rmatch import_tail s' [(1%nat, consumed s2 s')]
                     (λ rest caps, Some (caps, rest))).
  assert (∀ b w g2 rest, is_space b = true → str_all is_space w = true →
            str_all (cset_mem CAny) g2 = true →
            is_Some (K2 (String b w +:+ "import " +:+ g2 +:+ "pb2" +:+ rest))) as HK2.
  { intros. by apply tail_succeeds. }
  assert (is_Some (K2 (A +:+ post))) as H1.
  { replace (A +:+ post) with (" " +:+ "import " +:+ X +:+ "pb2" +:+ T +:+ post)
      by (unfold A; by norm_app).
    apply HK2; [done..|].
    eapply str_all_impl; [apply plain_blank_not_lf|].
    rewrite str_all_app in HXT. by apply andb_true_iff in HXT as [? _]. }
  destruct (star_complete CAny K2 (String y Y') (A +:+ post) HYlf H1)
    as [[caps rest] Hx].
  change (String y Y' +:+ A +:+ post) with s2 in Hx.
  rewrite Hx.
  destruct (star_sound _ _ _ _ Hx) as (g1 & r2 & Heq & Hg1 & HK & Hmax).
  unfold K2 in HK. rewrite Heq, consumed_app in HK.
  apply rmatch_sound in HK as (m & rest' & caps' & -> & Hm & [= <- <-]).
  apply matches_tail_inv in Hm as (b & w & g2 & -> & Hb & Hw & Hg2 & ->).
  replace ((String b w +:+ "import " +:+ g2 +:+ "pb2") +:+ rest')
    with (String b w +:+ "import " +:+ g2 +:+ "pb2" +:+ rest') in * by (by norm_app).
  (* the first group reaches at least to the end of the module path *)
  assert (∃ d, g1 = String y Y' +:+ d ∧
               A +:+ post = d +:+ String b w +:+ "import " +:+ g2 +:+ "pb2" +:+ rest')
    as (d & -> & HApost).
  { destruct (decide (String.length g1 < String.length (String y Y'))%nat) as [Hlt|Hge].
    { specialize (Hmax (String y Y') (A +:+ post) eq_refl HYlf Hlt).
      rewrite Hmax in H1. by destruct H1. }
    unfold s2 in Heq.
    change (String y (Y' +:+ A +:+ post)) with (String y Y' +:+ (A +:+ post)) in Heq.
    destruct (app_eq_split _ _ _ _ Heq) as [e [[-> He]|[He Hr]]].
    - by exists e.
    - exists "". rewrite He, length_app_str in Hge.
      destruct e; [|simpl in Hge; lia].
      rewrite app_nil_r_str in He. simpl in Hr. subst g1.
      by rewrite app_nil_r_str. }
  rewrite str_all_app in Hg1. apply andb_true_iff in Hg1 as [_ Hd].
  assert (str_all is_space (String b w) = true) as Hbw by (simpl; by rewrite Hb, Hw).
  destruct (match_stays_on_line A post d b w g2 rest' HAlf Hpost Hnext Hd Hbw Hg2 HApost)
    as (R & -> & HAeq).
  (* the white space before [import] is one blank *)
  assert (b = " "%char) as ->.
  { rewrite HAeq, str_all_app in HA. apply andb_true_iff in HA as [_ HA].
    simpl in HA. apply andb_true_iff in HA as [HA _].
    by apply plain_blank_space. }
  assert (w = "") as ->.
  { destruct w as [|b' w']; [done|]. exfalso.
    simpl in Hw. apply andb_true_iff in Hw as [Hb' Hw'].
    specialize (Hmax ((String y Y' +:+ d) +:+ " ")
                  (String b' w' +:+ "import " +:+ g2 +:+ "pb2" +:+ R +:+ post)).
    pose proof (HK2 b' w' g2 (R +:+ post) Hb' Hw' Hg2) as Hsome.
    rewrite Hmax in Hsome; [by destruct Hsome|..].
    - rewrite Heq. by norm_app.
    - rewrite !str_all_app. simpl in HYlf. simpl. by rewrite HYlf, Hd.
    - rewrite (length_app_str (String y Y' +:+ d) " "). simpl. lia. }
  exists (String y Y' +:+ d), g2, R. split; [done|]. split.
  - fold A. rewrite HAeq. by norm_app.
  - rewrite HAeq in HAfrom.
    replace (d +:+ " " +:+ "import " +:+ g2 +:+ "pb2" +:+ R)
      with ((d +:+ " " +:+ "import " +:+ g2 +:+ "pb2") +:+ R) in HAfrom by (by norm_app).
    by apply contains_suffix in HAfrom.
Qed.

(** ** The rewrite on pb2 import statements *)

Lemma rewrite_import_stmt pre Y X T post :
  contains "from" pre = false → is_pb2_import Y X T = true →
  ends_line post = true → next_is_import post = false →
  rewrite_code (pre +:+ import_stmt Y X T +:+ post)
  = pre +:+ import_stmt ("xray_rpc." +:+ Y) X T +:+ rewrite_code post.
Proof.
  intros Hpre HY Hpost Hnext.
  rewrite rewrite_code_skip; [f_equal|done|].
  2:{ intros c s' Hs. unfold import_stmt in Hs. simpl in Hs.
      injection Hs as <- _. done. }
  destruct (match_import_stmt Y X T post HY Hpost Hnext)
    as (g1 & g2 & R & Hm & Heq & HR).
  assert (import_stmt Y X T +:+ post
          = ("from " +:+ g1 +:+ " import " +:+ g2 +:+ "pb2") +:+ R +:+ post) as Hs.
  { unfold import_stmt.
    transitivity ("from " +:+ (Y +:+ " import " +:+ X +:+ "pb2" +:+ T) +:+ post);
      [by norm_app|].
    rewrite <- Heq. by norm_app. }
  rewrite Hs in Hm |- *. unfold rewrite_code at 1.
  assert ("from " +:+ g1 +:+ " import " +:+ g2 +:+ "pb2" ≠ "") as Hne by done.
  rewrite (re_sub_match _ _ _ _ _ Hne Hm).
  fold (rewrite_code (R +:+ post)).
  rewrite rewrite_code_skip; [|done|].
  2:{ intros c s' ->. simpl in Hpost. by apply Ascii.eqb_eq in Hpost as ->. }
  transitivity ("from xray_rpc." +:+ (g1 +:+ " import " +:+ g2 +:+ "pb2" +:+ R)
                +:+ rewrite_code post).
  { simpl expand. simpl group. by norm_app. }
  rewrite Heq. unfold import_stmt. by norm_app.
Qed.

(** What follows a statement keeps its shape under the rewrite. *)
Lemma rewrite_code_head a s :
  rewrite_code (String a s) = String a (rewrite_code s) ∨
  a = "f"%char ∧ ∃ t, rewrite_code (String a s) = String "f" t.
Proof.
  destruct (match_here import_re (String a s)) as [[caps rest]|] eqn:Hm.
  - right. pose proof (match_import_from _ _ Hm) as Hf. simpl in Hf.
    apply andb_true_iff in Hf as [->%Ascii.eqb_eq _]. split; [done|].
    destruct (match_import_shorter _ _ _ Hm) as (m & Hne & Hs).
    rewrite Hs in Hm |- *. unfold rewrite_code.
    rewrite (re_sub_match _ _ _ _ _ Hne Hm). simpl. eauto.
  - left. by apply re_sub_copy.
Qed.

Lemma ends_line_rewrite post :
  ends_line post = true → ends_line (rewrite_code post) = true.
Proof.
  destruct post as [|a p]; [done|]. simpl. intros ->%Ascii.eqb_eq.
  by destruct (rewrite_code_head LF p) as [->|[? _]].
Qed.

Lemma startswith_rewrite q : ∀ s,
  str_all (λ c, negb (Ascii.eqb c "f")) q = true →
  startswith s q = false → startswith (rewrite_code s) q = false.
Proof.
  induction q as [|c q IH]; intros s Hq H; [done|].
  simpl in Hq. apply andb_true_iff in Hq as [Hc Hq].
  destruct s as [|a s]; [done|].
  change (Ascii.eqb a c && startswith s q = false) in H.
  destruct (rewrite_code_head a s) as [->|[-> [t ->]]].
  - change (Ascii.eqb a c && startswith (rewrite_code s) q = false).
    destruct (Ascii.eqb a c); [|done]. by apply IH.
  - change (Ascii.eqb "f" c && startswith t q = false).
    apply negb_true_iff in Hc. by rewrite Ascii.eqb_sym, Hc.
Qed.

Lemma next_is_import_rewrite post :
  next_is_import post = false → next_is_import (rewrite_code post) = false.
Proof.
  unfold next_is_import. induction post as [|a p IH]; [done|].
  simpl lstrip at 1. destruct (is_space a) eqn:Ha.
  - intros H. destruct (rewrite_code_head a p) as [->|[-> _]]; [|done].
    simpl. rewrite Ha. by apply IH.
  - intros H. destruct (rewrite_code_head a p) as [Hr|[-> [t ->]]]; [|done].
    rewrite Hr. simpl lstrip. rewrite Ha. rewrite <- Hr.
    by apply startswith_rewrite.
Qed.

Lemma is_pb2_import_prefixed Y X T :
  is_pb2_import Y X T = true → is_pb2_import ("xray_rpc." +:+ Y) X T = true.
Proof.
  unfold is_pb2_import. intros H.
  apply andb_true_iff in H as [H ->]. apply andb_true_iff in H as [H ->].
  apply andb_true_iff in H as [_ HY].
  by rewrite str_all_app, HY.
Qed.

(** ** The stages of the pipeline *)

(** Unfolds the plumbing of [M]. *)
Ltac run :=
  unfold bind, ret, raise, get_fs, put_fs, get_trace, emit, logger, try_except;
  simpl.

Ltac run_in H :=
  unfold bind, ret, raise, get_fs, put_fs, get_trace, emit, logger, try_except in H;
  simpl in H.

(** C9: when the archive does not exist, the expander logs a warning and
    returns false without raising; the file system is left as it was. *)
Theorem unzip_missing_archive E xray_f w :
  fs w !! xray_zip_fn xray_f = None →
  _unzip_xray_core E xray_f w =
    (Ret false,
     World (fs w)
           (log w ++ [(WARNING, path_str (xray_zip_fn xray_f) +:+ " 不存在")])
           (trace w)).
Proof. intros H. unfold _unzip_xray_core. run. by rewrite H. Qed.

Lemma unzip_missing_archive_witness :
  _unzip_xray_core (sample_env (release "v1.0.0") (StreamFails connect_error) "")
                   (MkXrayFile ["repo"; "xray_download"] true) fresh_world
  = (Ret false,
     World (fs fresh_world)
           [(WARNING, "/repo/xray_download/xray-core.zip 不存在")] []).
Proof.
  exact (unzip_missing_archive
           (sample_env (release "v1.0.0") (StreamFails connect_error) "")
           (MkXrayFile ["repo"; "xray_download"] true) fresh_world eq_refl).
Defined.

(** C6: on status 200 with a JSON body that has a [tag_name] field the
    locator returns exactly the value of that field; on any other status
    it returns the empty string (and logs the status). *)
Theorem locator_returns_tag E w r :
  http_get E (trace w) releases_latest_url = inr r →
  (status_code r = 200 → ∀ d v,
     resp_json r = Some (JDict d) → dict_get d "tag_name" = Some v →
     _get_latest_xray_release E w =
       (Ret v, World (fs w) (log w) (trace w ++ [EvGet releases_latest_url]))) ∧
  (status_code r ≠ 200 →
     _get_latest_xray_release E w =
       (Ret (JStr ""),
        World (fs w)
              (log w ++ [(ERROR, "获取 xray-core 最新 release 版本失败，状态码 "
                                 +:+ pretty (status_code r))])
              (trace w ++ [EvGet releases_latest_url]))).
Proof.
  intros Hget. unfold _get_latest_xray_release, client_get. run. rewrite Hget.
  split.
  - intros -> d v Hjson Hd. simpl. unfold response_json, subscript.
    rewrite Hjson. run. by rewrite Hd.
  - intros Hne. by destruct (Z.eqb_spec (status_code r) 200).
Qed.

Lemma locator_returns_tag_witness :
  _get_latest_xray_release
    (sample_env (release "v1.8.4") (StreamFails connect_error) "") fresh_world
  = (Ret (JStr "v1.8.4"),
     World (fs fresh_world) [] [EvGet releases_latest_url]) ∧
  _get_latest_xray_release
    (sample_env (inr (Response 403 None)) (StreamFails connect_error) "") fresh_world
  = (Ret (JStr ""),
     World (fs fresh_world)
           [(ERROR, "获取 xray-core 最新 release 版本失败，状态码 403")]
           [EvGet releases_latest_url]).
Proof.
  split.
  - exact (proj1 (locator_returns_tag
                    (sample_env (release "v1.8.4") (StreamFails connect_error) "")
                    fresh_world _ eq_refl)
                 eq_refl _ _ eq_refl eq_refl).
  - refine (proj2 (locator_returns_tag
                     (sample_env (inr (Response 403 None)) (StreamFails connect_error) "")
                     fresh_world _ eq_refl) _).
    simpl. lia.
Defined.

(** C3: a transport error of the GET request is not caught by the locator:
    the exception goes to the caller and nothing is logged.  The same
    request inside [_download_xray_zip] is caught and logged. *)
Theorem locator_raises_transport_error :
  let E := sample_env (inl connect_error) (StreamFails connect_error) "" in
  _get_latest_xray_release E fresh_world
  = (Raise connect_error,
     World (fs fresh_world) [] [EvGet releases_latest_url]) ∧
  _download_xray_zip E (MkXrayFile ["repo"; "xray_download"] true) fresh_world
  = (Ret false,
     World (fs fresh_world)
           [(ERROR, "下载 xray-core 失败，connection refused")]
           [EvGet releases_latest_url]) ∧
  ¬ locator_swallows_transport_error E fresh_world.
Proof.
  split; [reflexivity|]. split; [reflexivity|].
  intros H. by specialize (H connect_error eq_refl).
Qed.

(** Whatever the environment, the exception of the request leaves the
    locator as it came. *)
Lemma locator_propagates E w e :
  http_get E (trace w) releases_latest_url = inl e →
  _get_latest_xray_release E w
  = (Raise e, World (fs w) (log w) (trace w ++ [EvGet releases_latest_url])).
Proof. intros H. unfold _get_latest_xray_release, client_get. run. by rewrite H. Qed.

(** *** [download] *)

Lemma open_wb_ok target w :
  writable (fs w) target →
  open_wb target w = (Ret tt, World (<[target := File ""]> (fs w)) (log w) (trace w)).
Proof.
  intros [Hd Hp]. unfold open_wb. run. rewrite Hp.
  destruct (fs w !! target) as [[|]|]; done.
Qed.

Lemma open_wb_fail target w :
  ¬ writable (fs w) target → ∃ e, open_wb target w = (Raise e, w).
Proof.
  intros H. unfold open_wb, writable in *. run.
  destruct (fs w !! target) as [[c|]|] eqn:Ht; [|by eauto|];
    destruct (fs w !! parent target) as [[c'|]|]; try (by eauto);
    destruct H; done.
Qed.

(** The loop writes the chunks behind what the file holds, then raises
    what the stream raises. *)
Lemma write_chunks_spec target chunks broken : ∀ f c l t,
  write_chunks target chunks broken (World (<[target := File c]> f) l t) =
    (match broken with Some e => Raise e | None => Ret tt end,
     World (<[target := File (c +:+ joined chunks)]> f) l t).
Proof.
  induction chunks as [|x chunks IH]; intros f c l t; simpl.
  - rewrite app_nil_r_str. by destruct broken.
  - unfold write at 1. run. rewrite lookup_insert_eq, insert_insert_eq.
    rewrite IH. by rewrite app_assoc_str.
Qed.

(** C5: an exception raised while the body is streamed is caught and
    logged and the download returns false, the destination holding the
    chunks received so far (nothing when the request itself fails); the
    download returns true only when the stream ended without exception. *)
Theorem download_stream_exception E url target w :
  (∀ status chunks e,
     writable (fs w) target →
     http_stream E (trace w) url = StreamBody status chunks (Some e) →
     is_Exception e = true →
     download E url target w =
       (Ret false,
        World (<[target := File (joined chunks)]> (fs w))
              (log w ++ [(INFO, "下载 " +:+ url +:+ " 开始......");
                         (ERROR, "从 " +:+ url +:+ " 下载文件到 " +:+ path_str target
                                 +:+ " 失败，" +:+ exn_msg e)])
              (trace w ++ [EvStream url]))) ∧
  (∀ e,
     writable (fs w) target →
     http_stream E (trace w) url = StreamFails e →
     is_Exception e = true →
     download E url target w =
       (Ret false,
        World (<[target := File ""]> (fs w))
              (log w ++ [(ERROR, "从 " +:+ url +:+ " 下载文件到 " +:+ path_str target
                                 +:+ " 失败，" +:+ exn_msg e)])
              (trace w ++ [EvStream url]))) ∧
  (∀ w', download E url target w = (Ret true, w') →
     ∃ status chunks, http_stream E (trace w) url = StreamBody status chunks None).
Proof.
  split; [|split].
  - intros status chunks e Hw Hs He. unfold download.
    unfold bind at 1. rewrite (open_wb_ok _ _ Hw).
    unfold try_except, client_stream. run. rewrite Hs. run.
    rewrite write_chunks_spec, He. simpl. by rewrite <- app_assoc.
  - intros e Hw Hs He. unfold download.
    unfold bind at 1. rewrite (open_wb_ok _ _ Hw).
    unfold try_except, client_stream. run. rewrite Hs. run. by rewrite He.
  - intros w' H. unfold download in H. unfold bind at 1 in H.
    destruct (decide (writable (fs w) target)) as [Hw|Hw].
    + rewrite (open_wb_ok _ _ Hw) in H.
      unfold try_except, client_stream in H. run_in H.
      destruct (http_stream E (trace w) url) as [e|status chunks broken]; run_in H.
      * by destruct (is_Exception e).
      * rewrite write_chunks_spec in H. destruct broken as [e|]; [|by eauto].
        by destruct (is_Exception e).
    + destruct (open_wb_fail _ _ Hw) as [e He]. by rewrite He in H.
Qed.

Lemma download_stream_exception_witness :
  download (sample_env (release "v1.0.0")
                       (StreamBody 200 ["PK"; "abc"] (Some connect_error)) "")
           "https://example.org/a.zip" ["repo"; "a.zip"] fresh_world
  = (Ret false,
     World (<[["repo"; "a.zip"] := File "PKabc"]> (fs fresh_world))
           [(INFO, "下载 https://example.org/a.zip 开始......");
            (ERROR, "从 https://example.org/a.zip 下载文件到 /repo/a.zip 失败，connection refused")]
           [EvStream "https://example.org/a.zip"]).
Proof.
  refine (proj1 (download_stream_exception
                   (sample_env (release "v1.0.0")
                      (StreamBody 200 ["PK"; "abc"] (Some connect_error)) "")
                   "https://example.org/a.zip" ["repo"; "a.zip"] fresh_world)
                200 ["PK"; "abc"] connect_error _ eq_refl eq_refl).
  split; by vm_compute.
Defined.

(** C10: the status code is never looked at: whenever the body ends without
    exception the download returns true and the body, be it that of an
    error response, is what the destination holds. *)
Theorem download_ignores_status E url target w status chunks :
  writable (fs w) target →
  http_stream E (trace w) url = StreamBody status chunks None →
  download E url target w =
    (Ret true,
     World (<[target := File (joined chunks)]> (fs w))
           (log w ++ [(INFO, "下载 " +:+ url +:+ " 开始......");
                      (INFO, "从 " +:+ url +:+ " 下载文件到 " +:+ path_str target
                             +:+ " 成功")])
           (trace w ++ [EvStream url])).
Proof.
  intros Hw Hs. unfold download.
  unfold bind at 1. rewrite (open_wb_ok _ _ Hw).
  unfold try_except, client_stream. run. rewrite Hs. run.
  rewrite write_chunks_spec. simpl. by rewrite <- app_assoc.
Qed.

Lemma download_ignores_status_witness :
  download (sample_env (release "v1.0.0")
                       (StreamBody 404 ["Not "; "Found"] None) "")
           "https://example.org/a.zip" ["repo"; "a.zip"] fresh_world
  = (Ret true,
     World (<[["repo"; "a.zip"] := File "Not Found"]> (fs fresh_world))
           [(INFO, "下载 https://example.org/a.zip 开始......");
            (INFO, "从 https://example.org/a.zip 下载文件到 /repo/a.zip 成功")]
           [EvStream "https://example.org/a.zip"]).
Proof.
  refine (download_ignores_status
            (sample_env (release "v1.0.0") (StreamBody 404 ["Not "; "Found"] None) "")
            "https://example.org/a.zip" ["repo"; "a.zip"] fresh_world
            404 ["Not "; "Found"] _ eq_refl).
  split; by vm_compute.
Defined.

(** *** [gen_pb2] *)

Lemma parent_snoc (p : path) x : parent (p ++ [x]) = p.
Proof. apply removelast_last. Qed.

Lemma parent_not_below (p : path) : p ≠ [] → ¬ p `prefix_of` parent p.
Proof.
  destruct p as [|x p _] using rev_ind; [done|]. intros _ H.
  rewrite parent_snoc in H. apply prefix_length in H.
  rewrite length_app in H. simpl in H. lia.
Qed.

(** In a tree nothing lies below a path that does not exist. *)
Lemma nothing_below_missing (f : gmap path node) p q :
  tree_shaped f → f !! p = None → p `prefix_of` q → f !! q = None.
Proof.
  intros Hf Hp [ext ->].
  induction ext as [|x ext IH] using rev_ind.
  - by rewrite app_nil_r.
  - destruct (f !! (p ++ ext ++ [x])) as [n|] eqn:Hq; [|done].
    destruct (Hf _ _ Hq) as [Hnil|Hpar].
    + by destruct p, ext.
    + rewrite app_assoc, parent_snoc in Hpar. by rewrite IH in Hpar.
Qed.

Lemma bind_ret_eq {A B} (m : M A) (k : A → M B) w a w' :
  m w = (Ret a, w') → bind m k w = k a w'.
Proof. unfold bind. by intros ->. Qed.

Lemma bind_raise_eq {A B} (m : M A) (k : A → M B) w e w' :
  m w = (Raise e, w') → bind m k w = (Raise e, w').
Proof. unfold bind. by intros ->. Qed.

Lemma get_fs_spec w : get_fs w = (Ret (fs w), w).
Proof. done. Qed.

(** One statement of a sequence has run. *)

Lemma ret_spec {A} (a : A) w : ret a w = (Ret a, w).
Proof. done. Qed.

Ltac step H := rewrite (bind_ret_eq _ _ _ _ _ H); cbv beta.
Tactic Notation "stepu" uconstr(H) :=
  rewrite (bind_ret_eq _ _ _ _ _ H); cbv beta.

Lemma logger_spec l msg w :
  logger l msg w = (Ret tt, World (fs w) (log w ++ [(l, msg)]) (trace w)).
Proof. done. Qed.


Lemma rmtree_spec p w :
  rmtree_ignore_errors p w =
    (Ret tt,
     World (if is_dir (fs w) p
            then filter (λ kv : path * node, ¬ p `prefix_of` kv.1) (fs w)
            else fs w) (log w) (trace w)).
Proof.
  unfold rmtree_ignore_errors. run. destruct (is_dir (fs w) p); [done|].
  by destruct w.
Qed.

Lemma mkdir_ok p w :
  fs w !! p = None → fs w !! parent p = Some Dir →
  mkdir p w = (Ret tt, World (<[p := Dir]> (fs w)) (log w) (trace w)).
Proof. intros H1 H2. unfold mkdir. run. by rewrite H1, H2. Qed.

Lemma system_spec E command w :
  system E command w =
    (Ret (os_system E command (fs w)).1,
     World (os_system E command (fs w)).2 (log w) (trace w ++ [EvSystem command])).
Proof. unfold system. run. by destruct (os_system E command (fs w)). Qed.

(** C8: the destination directory is removed with all that it holds and
    made anew before the compiler runs: in the file system that the
    compiler is started on, the destination is an empty directory, and
    everything outside of it is as before. *)
Theorem gen_pb2_recreates_destination E src dst w :
  tree_shaped (fs w) → dst ≠ [] →
  fs w !! dst = None ∨ fs w !! dst = Some Dir →
  fs w !! parent dst = Some Dir →
  ∃ f1 : gmap path node,
    f1 !! dst = Some Dir ∧
    (∀ q, dst `prefix_of` q → q ≠ dst → f1 !! q = None) ∧
    (∀ q, ¬ dst `prefix_of` q → f1 !! q = fs w !! q) ∧
    let command := protoc_command E src dst (map path_str (rglob f1 src ".proto")) in
    gen_pb2 E src dst w =
      (Ret (os_system E command f1).1,
       World (os_system E command f1).2 (log w) (trace w ++ [EvSystem command])).
Proof.
  intros Hf Hne Hdst Hpar.
  pose proof (parent_not_below dst Hne) as Hnb.
  set (f' := if is_dir (fs w) dst
             then filter (λ kv : path * node, ¬ dst `prefix_of` kv.1) (fs w)
             else fs w).
  assert (f' !! dst = None) as H1.
  { unfold f', is_dir. destruct Hdst as [Hd|Hd]; rewrite Hd; [done|].
    apply map_lookup_filter_None. right. intros x _ Hx. by apply Hx. }
  assert (∀ q, ¬ dst `prefix_of` q → f' !! q = fs w !! q) as H2.
  { intros q Hq. unfold f'. destruct (is_dir (fs w) dst); [|done].
    rewrite map_lookup_filter. destruct (fs w !! q) as [x|]; [|done].
    simpl. by rewrite option_guard_True. }
  assert (∀ q, dst `prefix_of` q → f' !! q = None) as H3.
  { intros q Hq. unfold f', is_dir. destruct Hdst as [Hd|Hd]; rewrite Hd.
    - by apply (nothing_below_missing _ dst).
    - apply map_lookup_filter_None. right. intros x _ Hx. by apply Hx. }
  exists (<[dst := Dir]> f'). repeat split.
  - apply lookup_insert_eq.
  - intros q Hq Hqd. rewrite lookup_insert_ne by done. by apply H3.
  - intros q Hq. rewrite lookup_insert_ne; [by apply H2|].
    intros <-. by apply Hq.
  - unfold gen_pb2.
    step (rmtree_spec dst w). fold f'.
    step (mkdir_ok dst (World f' (log w) (trace w)) H1 (eq_trans (H2 _ Hnb) Hpar)).
    step (get_fs_spec (World (<[dst := Dir]> f') (log w) (trace w))).
    by step (system_spec E (protoc_command E src dst
               (map path_str (rglob (<[dst := Dir]> f') src ".proto")))
               (World (<[dst := Dir]> f') (log w) (trace w))).
Qed.

Lemma gen_pb2_recreates_destination_witness :
  let E := sample_env (release "v1.0.0") (StreamFails connect_error) "" in
  let src := ["repo"; "xray_download"; "Xray-core-1.0.0"] in
  let dst := ["repo"; "xray_rpc"] in
  fs stale_world !! (dst /: "old_pb2.py") = Some (File "from a import b_pb2") ∧
  ∃ f1 : gmap path node,
    f1 !! dst = Some Dir ∧
    (∀ q, dst `prefix_of` q → q ≠ dst → f1 !! q = None) ∧
    (∀ q, ¬ dst `prefix_of` q → f1 !! q = fs stale_world !! q) ∧
    let command := protoc_command E src dst (map path_str (rglob f1 src ".proto")) in
    gen_pb2 E src dst stale_world =
      (Ret (os_system E command f1).1,
       World (os_system E command f1).2 (log stale_world)
             (trace stale_world ++ [EvSystem command])).
Proof.
  intros E src dst. split; [by vm_compute|].
  apply (gen_pb2_recreates_destination E src dst stale_world).
  - apply (bool_decide_unpack (tree_shaped (fs stale_world))). by vm_compute.
  - done.
  - right. by vm_compute.
  - by vm_compute.
Defined.

(** *** The version of the package *)

Lemma run_spec E args w p :
  subprocess_run E args (fs w) = inr p →
  run E args w = (Ret p, World (fs w) (log w) (trace w ++ [EvRun args])).
Proof. intros H. unfold run. run. by rewrite H. Qed.

(** *** The pattern and the replacement, as the source writes them *)

Example import_re_text :
  regex_show import_re = "from\s+(." +:+ "*" +:+ ")\s+import (." +:+ "*" +:+ ")pb2".
Proof. reflexivity. Qed.

Example import_repl_text :
  template_show import_repl = "from xray_rpc.\1 import \2pb2".
Proof. reflexivity. Qed.

(** * Further properties of [compile.py] *)

(** ** [_prepare_install] *)

(** The preparation never raises.  It returns true exactly when the
    install directory exists afterwards; when it returns false the file
    system is as before and one error is logged.  It sends no request. *)
Theorem prepare_install_total xray_f w :
  ∃ b w', _prepare_install xray_f w = (Ret b, w') ∧
    trace w' = trace w ∧
    (b = true ↔ is_Some (fs w' !! xray_install_path xray_f)) ∧
    (∀ q, q ≠ xray_install_path xray_f → fs w' !! q = fs w !! q) ∧
    (b = true → log w' = log w) ∧
    (b = false → fs w' = fs w ∧ ∃ msg, log w' = log w ++ [(ERROR, msg)]).
Proof.
  unfold _prepare_install, xray_install_path, mkdir, fs_exists. run.
  destruct (fs w !! xf_path xray_f) as [n|] eqn:Hp; simpl.
  - exists true, w. rewrite Hp. split_and!; eauto; done.
  - rewrite ?Hp.
    destruct (fs w !! parent (xf_path xray_f)) as [[c|]|] eqn:Hpar;
      rewrite ?Hp; simpl; eexists _, _; (split; [reflexivity|]); simpl;
      split_and!; try done; eauto;
      try (rewrite Hp; split; [done|by intros [? ?]]).
    + rewrite lookup_insert_eq. split; eauto.
    + intros q Hq. by rewrite lookup_insert_ne.
Qed.

(** ** Inversion of sequences *)

Lemma bind_ret_inv {A B} (m : M A) (k : A → M B) w b w' :
  bind m k w = (Ret b, w') → ∃ a w1, m w = (Ret a, w1) ∧ k a w1 = (Ret b, w').
Proof. unfold bind. destruct (m w) as [[a|e] w1]; [by eauto|done]. Qed.

Lemma try_except_ret_inv {A} (m : M A) handles (h : exn → M A) w b w' :
  try_except m handles h w = (Ret b, w') →
  m w = (Ret b, w') ∨
  ∃ e w1, m w = (Raise e, w1) ∧ handles e = true ∧ h e w1 = (Ret b, w').
Proof.
  unfold try_except. destruct (m w) as [[a|e] w1]; [by left|].
  destruct (handles e) eqn:He; [|done]. right. by exists e, w1.
Qed.

Lemma client_get_spec E url w :
  client_get E url w =
    (match http_get E (trace w) url with inl e => Raise e | inr r => Ret r end,
     World (fs w) (log w) (trace w ++ [EvGet url])).
Proof. unfold client_get. run. by destruct (http_get E (trace w) url). Qed.

(** ** [download] *)

Lemma open_wb_raises target w :
  ¬ writable (fs w) target →
  ∃ e, open_wb target w = (Raise e, w) ∧ is_OSError e = true.
Proof.
  intros H. unfold open_wb, writable in *. run.
  destruct (fs w !! target) as [[c|]|] eqn:Ht; [|by eauto|];
    destruct (fs w !! parent target) as [[c'|]|]; try (by eauto);
    destruct H; done.
Qed.

(** All that [download] does, once the destination is open. *)
Lemma download_spec E url target w :
  writable (fs w) target →
  download E url target w =
    let t' := trace w ++ [EvStream url] in
    let start := (INFO, "下载 " +:+ url +:+ " 开始......") in
    let failed e := (ERROR, "从 " +:+ url +:+ " 下载文件到 " +:+ path_str target
                            +:+ " 失败，" +:+ exn_msg e) in
    match http_stream E (trace w) url with
    | StreamFails e =>
        if is_Exception e
        then (Ret false, World (<[target := File ""]> (fs w)) (log w ++ [failed e]) t')
        else (Raise e, World (<[target := File ""]> (fs w)) (log w) t')
    | StreamBody _ chunks None =>
        (Ret true,
         World (<[target := File (joined chunks)]> (fs w))
               (log w ++ [start; (INFO, "从 " +:+ url +:+ " 下载文件到 "
                                        +:+ path_str target +:+ " 成功")]) t')
    | StreamBody _ chunks (Some e) =>
        if is_Exception e
        then (Ret false,
              World (<[target := File (joined chunks)]> (fs w))
                    (log w ++ [start; failed e]) t')
        else (Raise e,
              World (<[target := File (joined chunks)]> (fs w))
                    (log w ++ [start]) t')
    end.
Proof.
  intros Hw. unfold download. unfold bind at 1. rewrite (open_wb_ok _ _ Hw).
  unfold try_except, client_stream. run.
  destruct (http_stream E (trace w) url) as [e|status chunks [e|]]; run.
  - by destruct (is_Exception e).
  - rewrite write_chunks_spec. destruct (is_Exception e); simpl;
      by rewrite <- ?(app_assoc (log w)).
  - rewrite write_chunks_spec. simpl. by rewrite <- (app_assoc (log w)).
Qed.

(** When the destination cannot be opened, [download] raises the error of
    [open]: no request is sent and nothing is logged. *)
Theorem download_open_failure E url target w :
  ¬ writable (fs w) target →
  ∃ e, download E url target w = (Raise e, w) ∧ is_OSError e = true.
Proof.
  intros H. destruct (open_wb_raises _ _ H) as (e & He & Hos).
  exists e. split; [|done]. unfold download.
  by rewrite (bind_raise_eq _ _ _ _ _ He).
Qed.

Lemma download_open_failure_witness :
  ∃ e, download (sample_env (release "v1.0.0") (StreamBody 200 ["PK"] None) "")
                "https://example.org/a.zip" ["repo"; "xray_download"; "a.zip"]
                fresh_world
       = (Raise e, fresh_world) ∧ is_OSError e = true.
Proof.
  apply download_open_failure. intros [_ H]. by vm_compute in H.
Defined.

Lemma download_true_inv E url target w w' :
  download E url target w = (Ret true, w') →
  writable (fs w) target ∧
  ∃ status chunks,
    http_stream E (trace w) url = StreamBody status chunks None ∧
    fs w' = <[target := File (joined chunks)]> (fs w) ∧
    trace w' = trace w ++ [EvStream url].
Proof.
  intros H. destruct (decide (writable (fs w) target)) as [Hw|Hw].
  - split; [done|]. rewrite (download_spec _ _ _ _ Hw) in H. simpl in H.
    destruct (http_stream E (trace w) url) as [e|status chunks [e|]].
    + by destruct (is_Exception e).
    + by destruct (is_Exception e).
    + injection H as <-. by exists status, chunks.
  - destruct (open_wb_raises _ _ Hw) as (e & He & _). unfold download in H.
    by rewrite (bind_raise_eq _ _ _ _ _ He) in H.
Qed.

(** ** [_get_latest_xray_release] *)

(** A 200 response whose body is no JSON, is no object, or has no
    [tag_name] makes the locator raise: nothing is logged. *)
Theorem locator_raises_on_bad_body E w r :
  http_get E (trace w) releases_latest_url = inr r →
  status_code r = 200 →
  match resp_json r with
  | Some (JDict d) => dict_get d "tag_name" = None
  | _ => True
  end →
  ∃ e, _get_latest_xray_release E w =
         (Raise e, World (fs w) (log w) (trace w ++ [EvGet releases_latest_url])) ∧
       exn_type e =
         match resp_json r with
         | None => JSONDecodeError
         | Some (JDict _) => KeyError
         | Some _ => TypeError
         end.
Proof.
  intros Hget Hst Hbody. unfold _get_latest_xray_release.
  pose proof (client_get_spec E releases_latest_url w) as Hc.
  rewrite Hget in Hc. step Hc. rewrite Hst. simpl negb. cbv iota.
  unfold response_json, subscript.
  destruct (resp_json r) as [[| | | | |d]|]; run; eauto.
  rewrite Hbody. eauto.
Qed.

Lemma locator_raises_on_bad_body_witness :
  ∃ e, _get_latest_xray_release
         (sample_env (inr (Response 200 (Some (JDict [("message", JStr "x")]))))
                     (StreamFails connect_error) "") fresh_world
       = (Raise e, World (fs fresh_world) [] [EvGet releases_latest_url]) ∧
       exn_type e = KeyError.
Proof.
  exact (locator_raises_on_bad_body
           (sample_env (inr (Response 200 (Some (JDict [("message", JStr "x")]))))
                       (StreamFails connect_error) "")
           fresh_world _ eq_refl eq_refl eq_refl).
Defined.

(** ** [_download_xray_zip] *)

(** No instance of [Exception] leaves [_download_xray_zip]. *)
Theorem download_xray_zip_catches_all E xray_f w :
  match (_download_xray_zip E xray_f w).1 with
  | Ret _ => True
  | Raise e => is_Exception e = false
  end.
Proof.
  unfold _download_xray_zip, try_except.
  match goal with |- context [match ?m w with _ => _ end] =>
    destruct (m w) as [[b|e] w'] end; [done|].
  by destruct (is_Exception e) eqn:He.
Qed.

(** It returns true only when the metadata came with status 200 and a
    [tag_name], the archive of that tag was requested from the host that
    [use_cdn] selects, and its body arrived whole and is what the archive
    file holds. *)
Theorem download_xray_zip_true E xray_f w w' :
  _download_xray_zip E xray_f w = (Ret true, w') →
  ∃ r d v status chunks,
    http_get E (trace w) releases_latest_url = inr r ∧ status_code r = 200 ∧
    resp_json r = Some (JDict d) ∧ dict_get d "tag_name" = Some v ∧
    let url := (if use_cdn xray_f then "https://download.fastgit.org/"
                else "https://github.com/")
               +:+ "XTLS/Xray-core/archive/refs/tags/" +:+ py_str E v +:+ ".zip" in
    http_stream E (trace w ++ [EvGet releases_latest_url]) url
      = StreamBody status chunks None ∧
    fs w' = <[xray_zip_fn xray_f := File (joined chunks)]> (fs w) ∧
    trace w' = trace w ++ [EvGet releases_latest_url; EvStream url].
Proof.
  intros H. unfold _download_xray_zip in H.
  apply try_except_ret_inv in H as [H|(e & w1 & _ & _ & H)]; [|by run_in H].
  apply bind_ret_inv in H as (r & w1 & Hget & H).
  rewrite client_get_spec in Hget.
  destruct (http_get E (trace w) releases_latest_url) as [e|r'] eqn:Hr; [done|].
  injection Hget as -> <-.
  destruct (Z.eqb_spec (status_code r) 200) as [Hst|Hst]; simpl in H;
    [|by run_in H].
  apply bind_ret_inv in H as (result & w2 & Hjson & H).
  unfold response_json in Hjson.
  destruct (resp_json r) as [j|] eqn:Hj; [|done]. injection Hjson as -> <-.
  apply bind_ret_inv in H as (v & w3 & Hsub & H).
  unfold subscript in Hsub. destruct result as [| | | | |d]; try done.
  destruct (dict_get d "tag_name") as [v'|] eqn:Hd; [|done].
  injection Hsub as -> <-.
  apply bind_ret_inv in H as (ok & w4 & Hdl & H).
  destruct ok; [|by run_in H].
  apply download_true_inv in Hdl as (_ & status & chunks & Hs & Hfs & Htr).
  run_in H. injection H as <-. simpl.
  exists r, d, v, status, chunks. split_and!; try done.
  - simpl in Hs. unfold format_tag, xray_src_download_url_fmt in Hs.
    by destruct (use_cdn xray_f).
  - simpl in Htr. unfold format_tag, xray_src_download_url_fmt in Htr.
    rewrite Htr, <- app_assoc. by destruct (use_cdn xray_f).
Qed.

Lemma download_xray_zip_true_witness :
  let E := sample_env (release "v1.0.0") (StreamBody 200 ["PK"; "x"] None) "" in
  let xray_f := MkXrayFile ["repo"; "xray_download"] true in
  let w' := (_download_xray_zip E xray_f stale_world).2 in
  ∃ r d v status chunks,
    http_get E (trace stale_world) releases_latest_url = inr r ∧ status_code r = 200 ∧
    resp_json r = Some (JDict d) ∧ dict_get d "tag_name" = Some v ∧
    let url := (if use_cdn xray_f then "https://download.fastgit.org/"
                else "https://github.com/")
               +:+ "XTLS/Xray-core/archive/refs/tags/" +:+ py_str E v +:+ ".zip" in
    http_stream E (trace stale_world ++ [EvGet releases_latest_url]) url
      = StreamBody status chunks None ∧
    fs w' = <[xray_zip_fn xray_f := File (joined chunks)]> (fs stale_world) ∧
    trace w' = trace stale_world ++ [EvGet releases_latest_url; EvStream url].
Proof.
  intros E xray_f w'.
  apply (download_xray_zip_true E xray_f stale_world w'). by vm_compute.
Defined.

(** ** [_unzip_xray_core] *)

(** An archive that the zip decoder rejects makes the expander raise: the
    exception is not caught, nothing is logged or written. *)
Theorem unzip_bad_archive E xray_f w data e :
  fs w !! xray_zip_fn xray_f = Some (File data) →
  zip_read E data = inl e →
  _unzip_xray_core E xray_f w = (Raise e, w).
Proof.
  intros Hf Hz. unfold _unzip_xray_core. run. by rewrite Hf, Hz.
Qed.

Lemma unzip_bad_archive_witness :
  let E := with_zip_read (sample_env (release "v1.0.0") (StreamFails connect_error) "")
                         (λ _, inl (Exn BadZipFile "File is not a zip file")) in
  let w := World {[ [] := Dir; ["d"] := Dir; ["d"; "xray-core.zip"] := File "Not Found" ]}
                 [] [] in
  _unzip_xray_core E (MkXrayFile ["d"] false) w
  = (Raise (Exn BadZipFile "File is not a zip file"), w).
Proof.
  intros E w.
  exact (unzip_bad_archive E (MkXrayFile ["d"] false) w "Not Found" _ eq_refl eq_refl).
Defined.

(** ** [install_xray] *)

(** When the install directory is missing and cannot be made, the install
    returns false at once: no request is sent and no file is written. *)
Theorem install_stops_without_directory E p cdn w :
  fs w !! p = None → fs w !! parent p ≠ Some Dir →
  ∃ msg, install_xray E (Some p) cdn w =
           (Ret false, World (fs w) (log w ++ [(ERROR, msg)]) (trace w)).
Proof.
  intros Hp Hpar. unfold install_xray, XrayFile_init.
  assert (∃ msg, _prepare_install (MkXrayFile p cdn) w =
                   (Ret false, World (fs w) (log w ++ [(ERROR, msg)]) (trace w)))
    as [msg Hprep].
  { unfold _prepare_install, xray_install_path, mkdir, fs_exists. run.
    rewrite !Hp. simpl. rewrite Hp.
    destruct (fs w !! parent p) as [[c|]|]; [by eauto| done |by eauto]. }
  exists msg. by step Hprep.
Qed.

Lemma install_stops_without_directory_witness :
  ∃ msg, install_xray (sample_env (release "v1.0.0") (StreamBody 200 ["PK"] None) "")
                      (Some ["opt"; "xray"]) false fresh_world
         = (Ret false,
            World (fs fresh_world) (log fresh_world ++ [(ERROR, msg)])
                  (trace fresh_world)).
Proof. apply install_stops_without_directory; by vm_compute. Defined.

(** A body that is no zip archive is stored by a download that reports
    success, and the expander then raises: [install_xray] does not return
    false, the exception of the zip decoder leaves it. *)
Theorem install_raises_on_bad_archive E p cdn w r d v status chunks e :
  fs w !! p = Some Dir → fs w !! (p /: "xray-core.zip") ≠ Some Dir →
  http_get E (trace w) releases_latest_url = inr r → status_code r = 200 →
  resp_json r = Some (JDict d) → dict_get d "tag_name" = Some v →
  http_stream E (trace w ++ [EvGet releases_latest_url])
              (format_tag E (xray_src_download_url_fmt (MkXrayFile p cdn)) v)
    = StreamBody status chunks None →
  zip_read E (joined chunks) = inl e →
  ∃ w', install_xray E (Some p) cdn w = (Raise e, w') ∧
        fs w' = <[p /: "xray-core.zip" := File (joined chunks)]> (fs w).
Proof.
  intros Hp Hzip Hget Hst Hjson Hd Hs Hz.
  unfold install_xray, XrayFile_init.
  assert (_prepare_install (MkXrayFile p cdn) w = (Ret true, w)) as Hprep.
  { unfold _prepare_install, xray_install_path, fs_exists. run. by rewrite Hp. }
  step Hprep. change (negb true) with false. cbv iota.
  assert (∃ l, _download_xray_zip E (MkXrayFile p cdn) w =
            (Ret true,
             World (<[p /: "xray-core.zip" := File (joined chunks)]> (fs w)) l
                   (trace w ++ [EvGet releases_latest_url]
                    ++ [EvStream (format_tag E
                          (xray_src_download_url_fmt (MkXrayFile p cdn)) v)])))
    as [l Hdl].
  { unfold _download_xray_zip, try_except.
    pose proof (client_get_spec E releases_latest_url w) as Hc.
    rewrite Hget in Hc. step Hc. rewrite Hst.
    change (negb (200 =? 200)) with false. cbv iota.
    unfold response_json. rewrite Hjson. cbv beta iota. stepu (ret_spec _ _).
    unfold subscript. rewrite Hd. cbv beta iota. stepu (ret_spec _ _).
    unfold bind at 1. rewrite download_spec.
    2:{ split; [done|]. unfold xray_zip_fn. simpl xf_path.
        change (p /: "xray-core.zip") with (p ++ ["xray-core.zip"]).
        by rewrite parent_snoc. }
    simpl. rewrite Hs. run. rewrite <- (app_assoc (trace w)). by eexists. }
  step Hdl.
  eexists. split.
  - erewrite bind_raise_eq; [done|].
    unfold _unzip_xray_core. run. by rewrite lookup_insert_eq, Hz.
  - done.
Qed.

Lemma install_raises_on_bad_archive_witness :
  let E := with_zip_read
             (sample_env (release "v1.0.0") (StreamBody 404 ["Not Found"] None) "")
             (λ _, inl (Exn BadZipFile "File is not a zip file")) in
  ∃ w', install_xray E (Some ["repo"; "xray_download"]) true stale_world
        = (Raise (Exn BadZipFile "File is not a zip file"), w') ∧
        fs w' = <[["repo"; "xray_download"] /: "xray-core.zip" := File (joined ["Not Found"])]>
                  (fs stale_world).
Proof.
  intros E.
  apply (install_raises_on_bad_archive E ["repo"; "xray_download"] true stale_world
           (Response 200 (Some (JDict [("tag_name", JStr "v1.0.0")])))
           [("tag_name", JStr "v1.0.0")] (JStr "v1.0.0") 404 ["Not Found"]);
    by vm_compute.
Defined.

(** ** [gen_pb2] *)

(** When the destination is a regular file, the removal fails silently
    and the directory cannot be made: [gen_pb2] raises [FileExistsError],
    the file stays and the compiler is not started. *)
Theorem gen_pb2_destination_is_file E src dst w c :
  fs w !! dst = Some (File c) →
  gen_pb2 E src dst w = (Raise (FileExists dst), w).
Proof.
  intros H. unfold gen_pb2.
  assert (rmtree_ignore_errors dst w = (Ret tt, w)) as Hrm.
  { rewrite rmtree_spec. unfold is_dir. rewrite H. by destruct w. }
  step Hrm. erewrite bind_raise_eq; [done|].
  unfold mkdir. run. by rewrite H.
Qed.

Lemma gen_pb2_destination_is_file_witness :
  let w := World {[ [] := Dir; ["repo"] := Dir; ["repo"; "xray_rpc"] := File "x" ]}
                 [] [] in
  gen_pb2 (sample_env (release "v1.0.0") (StreamFails connect_error) "")
          ["repo"; "src"] ["repo"; "xray_rpc"] w
  = (Raise (FileExists ["repo"; "xray_rpc"]), w).
Proof.
  intros w.
  exact (gen_pb2_destination_is_file
           (sample_env (release "v1.0.0") (StreamFails connect_error) "")
           ["repo"; "src"] ["repo"; "xray_rpc"] w "x" eq_refl).
Defined.

(** ** The version of the package, continued *)

(** An exception of [subprocess.run] (the timeout of two seconds, a
    missing [poetry]) leaves the synchronizer before any version is set. *)
Theorem sync_version_run_raises E latest_version w e :
  subprocess_run E ["poetry"; "version"; "-s"] (fs w) = inl e →
  sync_version E latest_version w =
    (Raise e, World (fs w) (log w) (trace w ++ [EvRun ["poetry"; "version"; "-s"]])).
Proof.
  intros H. unfold sync_version. erewrite bind_raise_eq; [done|].
  unfold run. run. by rewrite H.
Qed.

Lemma sync_version_run_raises_witness :
  let E := with_subprocess_run
             (sample_env (release "v1.0.0") (StreamFails connect_error) "")
             (λ _ _, inl (Exn TimeoutExpired "timed out after 2 seconds")) in
  sync_version E (JStr "v1.0.0") fresh_world =
    (Raise (Exn TimeoutExpired "timed out after 2 seconds"),
     World (fs fresh_world) [] [EvRun ["poetry"; "version"; "-s"]]).
Proof.
  intros E.
  exact (sync_version_run_raises E (JStr "v1.0.0") fresh_world _ eq_refl).
Defined.

Lemma replace_char_none c s :
  str_all (λ a, negb (Ascii.eqb a c)) (replace_char c "" s) = true.
Proof.
  induction s as [|a s IH]; simpl; [done|].
  destruct (Ascii.eqb a c) eqn:Ha; simpl; [done|]. by rewrite Ha.
Qed.

Lemma startswith_nil_l p : startswith "" p = true → p = "".
Proof. by destruct p. Qed.

(** The version that is compared and set has no letter v at all: every v
    of the tag is removed, not only a leading one.  The comparison is on
    prefixes of text: whenever the current version is the numeric portion
    followed by anything, the time stamp is appended; when the version
    command printed nothing, the bare numeric portion is set. *)
Theorem sync_version_prefix_rule E tag w p :
  subprocess_run E ["poetry"; "version"; "-s"] (fs w) = inr p →
  let numeric := replace_char "v" "" tag in
  let issued := last (trace (sync_version E (JStr tag) w).2) in
  str_all (λ a, negb (Ascii.eqb a "v")) numeric = true ∧
  (∀ more, strip (stdout p) = numeric +:+ more →
     issued = Some (EvSystem ("poetry version " +:+ numeric +:+ "."
                              +:+ strftime_YmdHM (datetime_now E)))) ∧
  (strip (stdout p) = "" → numeric ≠ "" →
     issued = Some (EvSystem ("poetry version " +:+ numeric))).
Proof.
  intros Hp numeric issued.
  assert (issued = Some (EvSystem ("poetry version " +:+
            (if startswith (strip (stdout p)) numeric
             then numeric +:+ "." +:+ strftime_YmdHM (datetime_now E)
             else numeric)))) as Hissued.
  { unfold issued, sync_version. step (run_spec E _ w p Hp).
    unfold replace_v. stepu (ret_spec _ _). fold numeric.
    destruct (startswith (strip (stdout p)) numeric).
    - stepu (logger_spec _ _ _). stepu (logger_spec _ _ _).
      stepu (system_spec _ _ _). simpl. by rewrite last_snoc.
    - stepu (logger_spec _ _ _).
      stepu (system_spec _ _ _). simpl. by rewrite last_snoc. }
  split; [apply replace_char_none|]. split.
  - intros more Hcur. rewrite Hissued, Hcur, startswith_app. done.
  - intros Hcur Hne. rewrite Hissued, Hcur.
    destruct (startswith "" numeric) eqn:Hs; [|done].
    by apply startswith_nil_l in Hs.
Qed.

Lemma sync_version_prefix_rule_witness :
  let E := sample_env (release "v1.2.3") (StreamFails connect_error)
                      ("1.2.30" +:+ NL) in
  last (trace (sync_version E (JStr "v1.2.3") fresh_world).2)
  = Some (EvSystem ("poetry version " +:+ "1.2.3" +:+ "."
                    +:+ strftime_YmdHM (datetime_now E))).
Proof.
  intros E.
  exact (proj1 (proj2 (sync_version_prefix_rule E "v1.2.3" fresh_world
                         (Completed 0 ("1.2.30" +:+ NL) "") eq_refl))
               "0" eq_refl).
Defined.

(** ** The import pattern, continued *)

(** The pattern matches at the start of a text exactly when the text reads
    [from], white space, a text, white space, [import] and a blank, a
    text, [pb2], where the two texts have no line feed.  The white space
    is any white space, line feeds included. *)
Theorem import_match_iff s :
  is_Some (match_here import_re s) ↔
  ∃ w1 g1 w2 g2 rest,
    s = "from" +:+ w1 +:+ g1 +:+ w2 +:+ "import " +:+ g2 +:+ "pb2" +:+ rest ∧
    w1 ≠ "" ∧ str_all is_space w1 = true ∧
    w2 ≠ "" ∧ str_all is_space w2 = true ∧
    str_all (cset_mem CAny) g1 = true ∧ str_all (cset_mem CAny) g2 = true.
Proof.
  split.
  - intros [[caps rest] H].
    apply match_import_inv in H as (a & w & g1 & b & w' & g2 & -> & Hw & Hg1 & Hw' & Hg2 & _).
    exists (String a w), g1, (String b w'), g2, rest. by norm_app.
  - intros (w1 & g1 & w2 & g2 & rest & -> & Hn1 & Hw1 & Hn2 & Hw2 & Hg1 & Hg2).
    destruct w1 as [|a w]; [done|]. destruct w2 as [|b w']; [done|].
    simpl in Hw1, Hw2.
    apply andb_true_iff in Hw1 as [Ha Hw]. apply andb_true_iff in Hw2 as [Hb Hw'].
    unfold match_here.
    replace ("from" +:+ String a w +:+ g1 +:+ String b w' +:+ "import " +:+ g2
             +:+ "pb2" +:+ rest)
      with (("from" +:+ String a w +:+ g1 +:+ String b w' +:+ "import " +:+ g2
             +:+ "pb2") +:+ rest) by (by norm_app).
    eapply rmatch_complete; [|done].
    apply matches_import; [done..|]. by apply matches_tail.
Qed.

(** A line feed before an [import] line whose name has [pb2] is taken for
    the white space of the pattern: after a [from] line, the two lines are
    joined into one, all of the first line being the module path. *)
Theorem rewrite_joins_lines y L X :
  is_space y = false → str_all (cset_mem CAny) (String y L) = true →
  str_all (cset_mem CAny) X = true → contains "from" (X +:+ "pb2") = false →
  rewrite_code ("from " +:+ String y L +:+ NL +:+ "import " +:+ X +:+ "pb2")
  = "from xray_rpc." +:+ String y L +:+ " import " +:+ X +:+ "pb2".
Proof.
  intros Hy HL HX Hfrom.
  set (rest0 := NL +:+ "import " +:+ X +:+ "pb2").
  set (s2 := String y (L +:+ rest0)).
  assert (match_here import_re ("from " +:+ s2)
          = star CAny (λ s', rmatch import_tail s' [(1%nat, consumed s2 s')]
                               (λ rest caps, Some (caps, rest))) s2) as Hunf
    by (by apply match_here_import_unfold).
  set (K2 := λ s', rmatch import_tail s' [(1%nat, consumed s2 s')]
                     (λ rest caps, Some (caps, rest))) in *.
  assert (is_Some (K2 rest0)) as H1.
  { unfold K2, rest0, NL.
    replace (String LF "" +:+ "import " +:+ X +:+ "pb2")
      with (String LF "" +:+ "import " +:+ X +:+ "pb2" +:+ "")
      by (by rewrite !app_nil_r_str).
    by apply tail_succeeds. }
  destruct (star_complete CAny K2 (String y L) rest0 HL H1) as [[caps rest] Hx].
  change (String y L +:+ rest0) with s2 in Hx.
  destruct (star_sound _ _ _ _ Hx) as (g1 & r2 & Heq & Hg1 & HK & Hmax).
  (* the first group is the whole first line *)
  assert (g1 = String y L ∧ r2 = rest0) as [-> ->].
  { unfold s2 in Heq.
    change (String y (L +:+ rest0)) with (String y L +:+ rest0) in Heq.
    destruct (app_eq_split _ _ _ _ Heq) as [e [[-> He]|[He Hr]]].
    - destruct e as [|c e].
      + rewrite app_nil_r_str. by simpl in He.
      + unfold rest0, NL in He. simpl in He. injection He as <- _.
        rewrite str_all_app in Hg1. apply andb_true_iff in Hg1 as [_ Hg1].
        by simpl in Hg1.
    - destruct e as [|c e].
      + rewrite app_nil_r_str in He. by simpl in Hr.
      + exfalso. specialize (Hmax (String y L) rest0 eq_refl HL).
        rewrite Hmax in H1; [by destruct H1|].
        rewrite He, length_app_str. simpl. lia. }
  unfold K2 in HK.
  change s2 with (String y L +:+ rest0) in HK. rewrite consumed_app in HK.
  apply rmatch_sound in HK as (m & rest' & caps' & Hm & Hmt & [= <- <-]).
  apply matches_tail_inv in Hmt as (b & w & g2 & -> & Hb & Hw & Hg2 & ->).
  assert (w = "" ∧ X +:+ "pb2" = g2 +:+ "pb2" +:+ rest') as [-> HXeq].
  { unfold rest0, NL in Hm. simpl in Hm. injection Hm as <- Hm.
    destruct w as [|c w]; simpl in Hm.
    - injection Hm as Hm. by rewrite app_assoc_str in Hm.
    - injection Hm as <- _. by simpl in Hw. }
  assert (contains "from" rest' = false) as Hrest.
  { rewrite HXeq in Hfrom.
    replace (g2 +:+ "pb2" +:+ rest') with ((g2 +:+ "pb2") +:+ rest') in Hfrom
      by (by norm_app).
    by apply contains_suffix in Hfrom. }
  assert ("from " +:+ s2 =
          ("from " +:+ String y L +:+ NL +:+ "import " +:+ g2 +:+ "pb2") +:+ rest')
    as Hs.
  { unfold s2, rest0. rewrite HXeq. by norm_app. }
  change ("from " +:+ String y L +:+ rest0) with ("from " +:+ s2).
  rewrite <- Hunf in Hx. rewrite Hs in Hx |- *.
  unfold rewrite_code at 1.
  assert ("from " +:+ String y L +:+ NL +:+ "import " +:+ g2 +:+ "pb2" ≠ "") as Hne
    by done.
  rewrite (re_sub_match _ _ _ _ _ Hne Hx).
  fold (rewrite_code rest'). rewrite (rewrite_code_id rest') by (by left).
  rewrite HXeq. simpl expand. simpl group. by norm_app.
Qed.

Lemma rewrite_joins_lines_witness :
  rewrite_code ("from a import b" +:+ NL +:+ "import c_pb2")
  = "from xray_rpc.a import b import c_pb2".
Proof.
  exact (rewrite_joins_lines "a" " import b" "c_" eq_refl eq_refl eq_refl eq_refl).
Defined.

(** ** The loop over the generated modules *)

Lemma rglob_exists (f : gmap path node) p suffix q :
  q ∈ rglob f p suffix → is_Some (f !! q).
Proof.
  unfold rglob. destruct (is_dir f p); [|by intros ?%elem_of_nil].
  intros [_ Hq]%list_elem_of_filter.
  apply list_elem_of_fmap in Hq as ([q' n] & -> & Hq).
  apply elem_of_map_to_list in Hq. by eexists.
Qed.

Lemma rglob_NoDup (f : gmap path node) p suffix : NoDup (rglob f p suffix).
Proof.
  unfold rglob. destruct (is_dir f p); [|constructor].
  apply NoDup_filter, NoDup_fst_map_to_list.
Qed.

Lemma rewrite_file_spec py w :
  rewrite_file py w =
    match fs w !! py with
    | Some (File c) =>
        (Ret tt, World (<[py := File (rewrite_code c)]> (fs w)) (log w) (trace w))
    | Some Dir => (Raise (IsADirectory py), w)
    | None => (Raise (FileNotFound py), w)
    end.
Proof.
  unfold rewrite_file, read_text, overwrite. run.
  by destruct (fs w !! py) as [[c|]|].
Qed.

Lemma for_each_rewrite l : NoDup l → ∀ w,
  log (for_each l rewrite_file w).2 = log w ∧
  trace (for_each l rewrite_file w).2 = trace w ∧
  (∀ q, fs (for_each l rewrite_file w).2 !! q = fs w !! q ∨
        q ∈ l ∧ ∃ c, fs w !! q = Some (File c) ∧
          fs (for_each l rewrite_file w).2 !! q = Some (File (rewrite_code c))) ∧
  ((∀ q, q ∈ l → ∃ c, fs w !! q = Some (File c)) →
     (for_each l rewrite_file w).1 = Ret tt ∧
     ∀ q, q ∈ l → ∃ c, fs w !! q = Some (File c) ∧
       fs (for_each l rewrite_file w).2 !! q = Some (File (rewrite_code c))).
Proof.
  induction 1 as [|x l Hx Hnd IH]; intros w.
  - simpl. split_and!; eauto. intros _. split; [done|]. by intros q ?%elem_of_nil.
  - simpl. unfold bind. rewrite rewrite_file_spec.
    destruct (fs w !! x) as [[c|]|] eqn:Hfx; simpl.
    + set (w1 := World (<[x := File (rewrite_code c)]> (fs w)) (log w) (trace w)).
      destruct (IH w1) as (Hl & Ht & Hfr & Hok). split_and!; [done|done|..].
      * intros q. destruct (decide (q = x)) as [->|Hq].
        -- right. split; [by left|]. exists c. split; [done|].
           destruct (Hfr x) as [->|[Hin _]]; [|done].
           apply lookup_insert_eq.
        -- destruct (Hfr q) as [->|(Hin & c' & Hc' & Hq')].
           ++ left. by apply lookup_insert_ne.
           ++ right. split; [by right|]. exists c'. split; [|done].
              simpl in Hc'. by rewrite lookup_insert_ne in Hc'.
      * intros Hall.
        assert (∀ q, q ∈ l → ∃ c0, fs w1 !! q = Some (File c0)) as Hall1.
        { intros q Hq. destruct (Hall q (list_elem_of_further _ _ _ Hq)) as [c0 Hc0].
          exists c0. simpl. rewrite lookup_insert_ne; [done|]. by intros ->. }
        destruct (Hok Hall1) as [Hr Hq]. split; [done|].
        intros q [->|Hin]%elem_of_cons.
        -- exists c. split; [done|].
           destruct (Hfr x) as [->|[Hin _]]; [|done]. apply lookup_insert_eq.
        -- destruct (Hq q Hin) as (c0 & Hc0 & Hc1). exists c0. split; [|done].
           simpl in Hc0. rewrite lookup_insert_ne in Hc0; [done|]. by intros ->.
    + split_and!; eauto.
      intros Hall. destruct (Hall x) as [c Hc]; [by left|]. congruence.
    + split_and!; eauto.
      intros Hall. destruct (Hall x) as [c Hc]; [by left|]. congruence.
Qed.

(** One run of the loop rewrites every module once: a path either keeps
    its content or is one of the [*.py] entries below the destination and
    holds the rewritten text of what it held.  Nothing is created or
    removed, logged or requested.  When none of these entries is a
    directory the loop ends without exception and all of them have been
    rewritten. *)
Theorem rewrite_imports_once dst_path w :
  let out := rewrite_imports dst_path w in
  let modules := rglob (fs w) dst_path ".py" in
  log out.2 = log w ∧ trace out.2 = trace w ∧
  (∀ q, fs out.2 !! q = fs w !! q ∨
        q ∈ modules ∧ ∃ c, fs w !! q = Some (File c) ∧
          fs out.2 !! q = Some (File (rewrite_code c))) ∧
  ((∀ q, q ∈ modules → is_dir (fs w) q = false) →
     out.1 = Ret tt ∧
     ∀ q, q ∈ modules → ∃ c, fs w !! q = Some (File c) ∧
       fs out.2 !! q = Some (File (rewrite_code c))).
Proof.
  intros out modules.
  assert (out = for_each modules rewrite_file w) as -> by done.
  destruct (for_each_rewrite modules (rglob_NoDup _ _ _) w) as (Hl & Ht & Hfr & Hok).
  split_and!; [done..|].
  intros Hfiles. apply Hok. intros q Hq.
  destruct (rglob_exists _ _ _ _ Hq) as [[c|] Hn]; [by eauto|].
  specialize (Hfiles q Hq). unfold is_dir in Hfiles. by rewrite Hn in Hfiles.
Qed.

Lemma rewrite_imports_once_witness :
  let out := rewrite_imports ["repo"; "xray_rpc"] stale_world in
  out.1 = Ret tt ∧
  ∀ q, q ∈ rglob (fs stale_world) ["repo"; "xray_rpc"] ".py" →
    ∃ c, fs stale_world !! q = Some (File c) ∧
         fs out.2 !! q = Some (File (rewrite_code c)).
Proof.
  apply (proj2 (proj2 (proj2 (rewrite_imports_once ["repo"; "xray_rpc"] stale_world)))).
  intros q Hq. vm_compute in Hq.
  apply list_elem_of_singleton in Hq as ->. by vm_compute.
Defined.

(** ** What the install step leaves alone *)

Lemma built_in_refl dir f : tree_shaped f → built_in dir f f.
Proof. by intros Hf. Qed.

Lemma built_in_trans dir f1 f2 f3 :
  built_in dir f1 f2 → built_in dir f2 f3 → built_in dir f1 f3.
Proof.
  intros (_ & He1 & Hf1) (Ht & He2 & Hf2). split_and!; [done|..].
  - intros q Hq. by apply He2, He1.
  - intros q Hq. by rewrite Hf2, Hf1.
Qed.

Lemma inside_self dir : inside dir dir.
Proof. exists []. by rewrite app_nil_r. Qed.

Lemma inside_snoc dir q c : inside dir q → safe_name c = true → inside dir (q ++ [c]).
Proof.
  intros (comps & -> & Hc) Hs. exists (comps ++ [c]).
  rewrite app_assoc. split; [done|].
  rewrite forallb_app, Hc. simpl. by rewrite Hs.
Qed.

(** An entry is put where none or a file was, in a directory. *)
Lemma tree_insert (f : gmap path node) (p : path) (n : node) :
  tree_shaped f → p = [] ∨ f !! parent p = Some Dir →
  f !! p ≠ Some Dir ∨ n = Dir → tree_shaped (<[p := n]> f).
Proof.
  intros Hf Hpar Hp q x Hq.
  destruct (decide (q = [])) as [->|Hne]; [by left|right].
  assert (f !! parent q = Some Dir) as Hq'.
  { destruct (decide (q = p)) as [->|Hqp]; [by destruct Hpar|].
    rewrite lookup_insert_ne in Hq by done.
    by destruct (Hf q x Hq). }
  destruct (decide (parent q = p)) as [Heq|Hneq].
  - rewrite Heq in Hq' |- *. rewrite lookup_insert_eq.
    destruct Hp as [Hp| ->]; [done|done].
  - by rewrite lookup_insert_ne.
Qed.

Lemma built_in_insert (dir : path) (f : gmap path node) (p : path) (n : node) :
  tree_shaped f → inside dir p → p = [] ∨ f !! parent p = Some Dir →
  f !! p ≠ Some Dir ∨ n = Dir → built_in dir f (<[p := n]> f).
Proof.
  intros Hf Hin Hpar Hp. split_and!.
  - by apply tree_insert.
  - intros q Hq. apply lookup_insert_is_Some'. by right.
  - intros q Hq. apply lookup_insert_ne. by intros <-.
Qed.

Lemma builds_weaken {A} dir (m : M A) : builds_in dir m → builds_in_existing dir m.
Proof. intros H w Hw _. by apply H. Qed.

Lemma builds_ret {A} dir (a : A) : builds_in dir (ret a).
Proof. intros w Hw. by apply built_in_refl. Qed.

Lemma builds_raise {A} dir e : builds_in dir (@raise A e).
Proof. intros w Hw. by apply built_in_refl. Qed.

Lemma builds_logger dir l msg : builds_in dir (logger l msg).
Proof. intros w Hw. by apply built_in_refl. Qed.

Lemma builds_bind {A B} dir (m : M A) (k : A → M B) :
  builds_in dir m → (∀ a, builds_in dir (k a)) → builds_in dir (bind m k).
Proof.
  intros Hm Hk w Hw. unfold bind. specialize (Hm w Hw).
  destruct (m w) as [[a|e] w1]; simpl in *; [|done].
  eapply built_in_trans; [done|]. apply Hk. by destruct Hm.
Qed.

Lemma builds_bind_existing {A B} dir (m : M A) (k : A → M B) :
  builds_in_existing dir m → (∀ a, builds_in_existing dir (k a)) →
  builds_in_existing dir (bind m k).
Proof.
  intros Hm Hk w Hw Hd. unfold bind. specialize (Hm w Hw Hd).
  destruct (m w) as [[a|e] w1]; simpl in *; [|done].
  eapply built_in_trans; [done|]. destruct Hm as (Ht & He & _). apply Hk; auto.
Qed.

Lemma builds_try_except {A} dir (m : M A) handles h :
  builds_in dir m → (∀ e, builds_in dir (h e)) →
  builds_in dir (try_except m handles h).
Proof.
  intros Hm Hh w Hw. unfold try_except. specialize (Hm w Hw).
  destruct (m w) as [[a|e] w1]; simpl in *; [done|].
  destruct (handles e); [|done].
  eapply built_in_trans; [done|]. apply Hh. by destruct Hm.
Qed.

Lemma builds_try_except_existing {A} dir (m : M A) handles h :
  builds_in_existing dir m → (∀ e, builds_in_existing dir (h e)) →
  builds_in_existing dir (try_except m handles h).
Proof.
  intros Hm Hh w Hw Hd. unfold try_except. specialize (Hm w Hw Hd).
  destruct (m w) as [[a|e] w1]; simpl in *; [done|].
  destruct (handles e); [|done].
  eapply built_in_trans; [done|]. destruct Hm as (Ht & He & _). apply Hh; auto.
Qed.

Lemma builds_for_each_existing {A} dir (l : list A) body :
  (∀ x, builds_in_existing dir (body x)) → builds_in_existing dir (for_each l body).
Proof.
  intros Hb. induction l as [|x l IH]; simpl.
  - apply builds_weaken, builds_ret.
  - apply builds_bind_existing; [apply Hb|done].
Qed.

Lemma builds_mkdir dir p : inside dir p → builds_in dir (mkdir p).
Proof.
  intros Hin w Hw. unfold mkdir. run.
  destruct (fs w !! p) as [n|] eqn:Hp; [by apply built_in_refl|].
  destruct (fs w !! parent p) as [[c|]|] eqn:Hpar; simpl;
    [by apply built_in_refl| |by apply built_in_refl].
  apply built_in_insert; auto.
Qed.

Lemma builds_open_wb dir p : inside dir p → builds_in dir (open_wb p).
Proof.
  intros Hin w Hw. unfold open_wb. run.
  destruct (fs w !! p) as [[c|]|] eqn:Hp; [|by apply built_in_refl|];
    destruct (fs w !! parent p) as [[c'|]|] eqn:Hpar; simpl;
    try (by apply built_in_refl);
    apply built_in_insert; auto; left; by rewrite Hp.
Qed.

Lemma builds_write dir p chunk : inside dir p → builds_in dir (write p chunk).
Proof.
  intros Hin w Hw. unfold write. run.
  destruct (fs w !! p) as [[c|]|] eqn:Hp; simpl; try (by apply built_in_refl).
  split_and!.
  - intros q x Hq. destruct (decide (q = [])) as [->|Hne]; [by left|right].
    assert (fs w !! parent q = Some Dir) as Hq'.
    { destruct (decide (q = p)) as [->|Hqp].
      - by destruct (Hw p _ Hp).
      - rewrite lookup_insert_ne in Hq by done. by destruct (Hw q x Hq). }
    rewrite lookup_insert_ne; [done|]. intros Heq. congruence.
  - intros q Hq. apply lookup_insert_is_Some'. by right.
  - intros q Hq. apply lookup_insert_ne. by intros <-.
Qed.

Lemma builds_write_chunks dir p chunks broken :
  inside dir p → builds_in dir (write_chunks p chunks broken).
Proof.
  intros Hin. induction chunks as [|c chunks IH]; simpl.
  - destruct broken; [apply builds_raise|apply builds_ret].
  - apply builds_bind; [by apply builds_write|done].
Qed.

Lemma builds_client_get dir E url : builds_in dir (client_get E url).
Proof. intros w Hw. rewrite client_get_spec. by apply built_in_refl. Qed.

Lemma builds_download dir E url target :
  inside dir target → builds_in dir (download E url target).
Proof.
  intros Hin. unfold download. apply builds_bind; [by apply builds_open_wb|].
  intros _. apply builds_try_except.
  - apply builds_bind.
    + intros w Hw. unfold client_stream. run. by apply built_in_refl.
    + intros [e|status chunks broken]; [apply builds_raise|].
      repeat (apply builds_bind; [|intros _]);
        auto using builds_logger, builds_write_chunks, builds_ret.
  - intros e. apply builds_bind; [apply builds_logger|]. intros _. apply builds_ret.
Qed.

Lemma builds_get_fs dir : builds_in dir get_fs.
Proof. intros w Hw. by apply built_in_refl. Qed.

(** The names that [ZipFile.extract] keeps are names of entries. *)
Lemma split_char_no_sep sep s :
  Forall (λ c, contains (String sep "") c = false) (split_char sep s).
Proof.
  induction s as [|a s IH]; simpl.
  - by repeat constructor.
  - destruct (Ascii.eqb a sep) eqn:Ha.
    + by constructor.
    + destruct (split_char sep s) as [|c l].
      * constructor; [|done].
        change (Ascii.eqb a sep && true || false = false). by rewrite Ha.
      * inversion IH as [|? ? Hc Hl]; subst. constructor; [|done].
        change (Ascii.eqb a sep && true || contains (String sep "") c = false).
        by rewrite Ha, Hc.
Qed.

Lemma member_parts_safe name : forallb safe_name (member_parts name) = true.
Proof.
  unfold member_parts. pose proof (split_char_no_sep "/" name) as H.
  induction H as [|c l Hc Hl IH]; [done|].
  change (List.filter kept_by_zipfile (c :: l))
    with (if kept_by_zipfile c then c :: List.filter kept_by_zipfile l
          else List.filter kept_by_zipfile l).
  destruct (kept_by_zipfile c) eqn:Hk; [|done].
  change (safe_name c && forallb safe_name (List.filter kept_by_zipfile l) = true).
  unfold safe_name at 1. by rewrite Hk, Hc, IH.
Qed.

Lemma parent_exists (f : gmap path node) (q : path) :
  tree_shaped f → is_Some (f !! q) → is_Some (f !! parent q).
Proof.
  intros Hf [x Hq]. destruct (Hf q x Hq) as [->|Hp]; [by exists x|by exists Dir].
Qed.

Lemma fs_exists_true (f : gmap path node) (p : path) :
  is_Some (f !! p) → fs_exists f p = true.
Proof. unfold fs_exists. by intros [x ->]. Qed.

(** [os.makedirs] on a path inside a directory that exists makes nothing
    outside of it. *)
Lemma builds_makedirs_rev (dir : path) r :
  (∃ u, rev r = dir ++ u ∧ forallb safe_name u = true) →
  builds_in_existing dir (makedirs_rev r).
Proof.
  induction r as [|c r IH]; intros (u & Hr & Hu).
  - simpl in Hr. symmetry in Hr. apply app_eq_nil in Hr as [-> ->].
    apply builds_weaken, builds_mkdir, inside_self.
  - change (rev (c :: r)) with (rev r ++ [c]) in Hr.
    destruct u as [|c' u _] using rev_ind.
    + rewrite app_nil_r in Hr. intros w Hw Hd. simpl makedirs_rev.
      stepu (get_fs_spec _).
      assert (fs_exists (fs w) (rev r) = true) as ->.
      { apply fs_exists_true. rewrite <- (parent_snoc (rev r) c), Hr.
        by apply parent_exists. }
      simpl negb. cbv iota. stepu (ret_spec _ _). rewrite Hr.
      exact (builds_mkdir dir dir (inside_self dir) w Hw).
    + rewrite app_assoc in Hr. apply app_inj_tail in Hr as [Hr <-].
      rewrite forallb_app in Hu. apply andb_true_iff in Hu as [Hu Hc].
      simpl in Hc. rewrite andb_true_r in Hc.
      simpl makedirs_rev. apply builds_bind_existing;
        [apply builds_weaken, builds_get_fs|]. intros f.
      apply builds_bind_existing.
      * destruct (negb _); [|apply builds_weaken, builds_ret].
        apply builds_try_except_existing; [by apply IH; exists u|].
        intros e. apply builds_weaken, builds_ret.
      * intros _. apply builds_weaken, builds_mkdir. rewrite Hr.
        apply inside_snoc; [|done]. by exists u.
Qed.

(** One member is expanded inside the directory, whatever its name. *)
Lemma builds_extract_member (dir : path) m :
  builds_in_existing dir (extract_member dir m).
Proof.
  pose proof (member_parts_safe m.1) as Hsafe.
  assert (inside dir (dir ++ member_parts m.1)) as Hin by (by eexists).
  assert (builds_in_existing dir
            (if endswith m.1 "/" then
               do f <- get_fs;
               if is_dir f (dir ++ member_parts m.1) then ret tt
               else mkdir (dir ++ member_parts m.1)
             else
               open_wb (dir ++ member_parts m.1);;
               write (dir ++ member_parts m.1) m.2)) as Hrest.
  { apply builds_weaken. destruct (endswith m.1 "/").
    - apply builds_bind; [apply builds_get_fs|]. intros f.
      destruct (is_dir _ _); [apply builds_ret|by apply builds_mkdir].
    - apply builds_bind; [by apply builds_open_wb|]. intros _.
      by apply builds_write. }
  intros w Hw Hd. unfold extract_member. stepu (get_fs_spec _).
  destruct (fs_exists (fs w) (parent (dir ++ member_parts m.1))) eqn:Hup.
  - simpl negb. cbv iota. stepu (ret_spec _ _). by apply Hrest.
  - simpl negb. cbv iota.
    revert w Hw Hd Hup.
    destruct (member_parts m.1) as [|c ps _] using rev_ind; intros w Hw Hd Hup.
    { rewrite app_nil_r in Hup.
      by rewrite (fs_exists_true _ _ (parent_exists _ _ Hw Hd)) in Hup. }
    rewrite forallb_app in Hsafe. apply andb_true_iff in Hsafe as [Hps _].
    refine (builds_bind_existing dir _ _ _ (λ _, Hrest) w Hw Hd).
    rewrite app_assoc, parent_snoc. unfold makedirs.
    apply builds_makedirs_rev. exists ps. by rewrite rev_involutive.
Qed.

Lemma builds_extract members (dir : path) name :
  builds_in_existing dir (extract members dir name).
Proof.
  unfold extract. destruct (getinfo members name);
    [apply builds_extract_member|apply builds_weaken, builds_raise].
Qed.

Lemma builds_unzip E xray_f :
  builds_in (xf_path xray_f) (_unzip_xray_core E xray_f).
Proof.
  intros w Hw. unfold _unzip_xray_core. stepu (get_fs_spec _).
  destruct (fs w !! xray_zip_fn xray_f) as [[data|]|] eqn:Hzip;
    [|by apply built_in_refl|by apply built_in_refl].
  destruct (zip_read E data) as [e|members]; [by apply built_in_refl|].
  unfold xray_zip_fn in *.
  change (xf_path xray_f /: "xray-core.zip")
    with (xf_path xray_f ++ ["xray-core.zip"]) in *.
  rewrite parent_snoc.
  assert (is_Some (fs w !! xf_path xray_f)) as Hd.
  { rewrite <- (parent_snoc (xf_path xray_f) "xray-core.zip").
    apply parent_exists; [done|by eexists]. }
  refine (builds_bind_existing _ _ _ _ _ w Hw Hd).
  - apply builds_for_each_existing. intros name. apply builds_extract.
  - intros _. apply builds_weaken, builds_ret.
Qed.

Lemma builds_install E (p : path) cdn : builds_in p (install_xray E (Some p) cdn).
Proof.
  unfold install_xray, XrayFile_init.
  apply builds_bind.
  { unfold _prepare_install. apply builds_try_except.
    - apply builds_bind; [apply builds_get_fs|]. intros f.
      apply builds_bind; [|intros _; apply builds_ret].
      destruct (negb _); [|apply builds_ret].
      apply builds_mkdir, inside_self.
    - intros e. apply builds_bind; [apply builds_logger|]. intros _. apply builds_ret. }
  intros ready. destruct (negb ready); [apply builds_ret|].
  apply builds_bind.
  { unfold _download_xray_zip. apply builds_try_except.
    - apply builds_bind; [apply builds_client_get|]. intros req.
      destruct (negb _).
      + apply builds_bind; [apply builds_logger|]. intros _. apply builds_ret.
      + apply builds_bind.
        { unfold response_json. destruct (resp_json req);
            [apply builds_ret|apply builds_raise]. }
        intros result. apply builds_bind.
        { unfold subscript. destruct result; try apply builds_raise.
          destruct (dict_get _ _); [apply builds_ret|apply builds_raise]. }
        intros tag. apply builds_bind.
        { apply builds_download. by exists ["xray-core.zip"]. }
        intros [|]; [|apply builds_ret].
        apply builds_bind; [apply builds_logger|]. intros _. apply builds_ret.
    - intros e. apply builds_bind; [apply builds_logger|]. intros _. apply builds_ret. }
  intros downloaded. apply builds_bind.
  { destruct downloaded; [apply (builds_unzip E (MkXrayFile p cdn))|apply builds_ret]. }
  intros [|]; [|apply builds_ret].
  apply builds_bind; [apply builds_logger|]. intros _. apply builds_ret.
Qed.

(** Whatever the archive holds (member names with [..], names that start
    with a slash, names given twice) and however the expansion ends: on a
    tree it changes no path but those made of the install directory
    followed by names of entries; the tree stays a tree and no entry is
    removed. *)
Theorem unzip_keeps_outside E xray_f w :
  tree_shaped (fs w) →
  let f' := fs (_unzip_xray_core E xray_f w).2 in
  tree_shaped f' ∧
  (∀ q, is_Some (fs w !! q) → is_Some (f' !! q)) ∧
  (∀ q, ¬ inside (xray_install_path xray_f) q → f' !! q = fs w !! q).
Proof. apply builds_unzip. Qed.

(** The install step, with all its three parts and however it ends,
    changes no path but those made of the install directory followed by
    names of entries, keeps the tree a tree and removes no entry. *)
Theorem install_keeps_outside E (p : path) cdn w :
  tree_shaped (fs w) →
  let f' := fs (install_xray E (Some p) cdn w).2 in
  tree_shaped f' ∧
  (∀ q, is_Some (fs w !! q) → is_Some (f' !! q)) ∧
  (∀ q, ¬ inside p q → f' !! q = fs w !! q).
Proof. apply builds_install. Qed.

Lemma unzip_keeps_outside_witness :
  let E := with_zip_read (sample_env (release "v1.0.0") (StreamFails connect_error) "")
             (λ _, inr [("Xray-core-1.0.0/", "");
                        ("Xray-core-1.0.0/a.proto", "syntax");
                        ("../e", "other");
                        ("/etc/x", "x")]) in
  let w := World {[ [] := Dir; ["d"] := Dir; ["d"; "xray-core.zip"] := File "PK";
                    ["e"] := File "keep" ]} [] [] in
  let f' := fs (_unzip_xray_core E (MkXrayFile ["d"] false) w).2 in
  f' !! ["e"] = Some (File "keep") ∧ f' !! ["etc"] = None ∧
  f' !! ["d"; "e"] = Some (File "other") ∧
  f' !! ["d"; "etc"; "x"] = Some (File "x") ∧
  f' !! ["d"; "Xray-core-1.0.0"; "a.proto"] = Some (File "syntax").
Proof.
  intros E w f'.
  assert (tree_shaped (fs w)) as Hw.
  { apply (bool_decide_unpack (tree_shaped (fs w))). by vm_compute. }
  destruct (unzip_keeps_outside E (MkXrayFile ["d"] false) w Hw) as (_ & _ & H).
  split_and!; [| |by vm_compute..].
  - apply (H ["e"]). by intros (comps & [=] & _).
  - apply (H ["etc"]). by intros (comps & [=] & _).
Defined.

Lemma install_keeps_outside_witness :
  let E := sample_env (release "v1.0.0") (StreamBody 200 ["PK"] None) "" in
  fs (install_xray E (Some ["repo"; "xray_download"]) true stale_world).2
    !! ["repo"; "xray_rpc"; "old_pb2.py"]
  = fs stale_world !! ["repo"; "xray_rpc"; "old_pb2.py"].
Proof.
  intros E.
  assert (tree_shaped (fs stale_world)) as Hw.
  { apply (bool_decide_unpack (tree_shaped (fs stale_world))). by vm_compute. }
  destruct (install_keeps_outside E ["repo"; "xray_download"] true stale_world Hw)
    as (_ & _ & H).
  apply H. by intros (comps & [=] & _).
Defined.

(** ** The entry point, continued *)

(** A [tag_name] that is no string stops [main] with [AttributeError]
    when the name of the source directory is made: the tag is logged,
    nothing is compiled and no version is set. *)
Theorem main_raises_on_non_string_tag E w b w1 v w2 :
  install_xray E (Some (script_dir E /: "xray_download")) true w = (Ret b, w1) →
  _get_latest_xray_release E w1 = (Ret v, w2) →
  (∀ s, v ≠ JStr s) →
  ∃ e, exn_type e = AttributeError ∧
    main E w =
      (Raise e,
       World (fs w2) (log w2 ++ [(INFO, "xray-core 最新版本为 " +:+ py_repr E v)])
             (trace w2)).
Proof.
  intros Hinstall Hrel Hv.
  exists (Exn AttributeError "object has no attribute 'replace'"). split; [done|].
  unfold main. step Hinstall. step Hrel. stepu (logger_spec _ _ _).
  destruct v as [| | |s| |]; try (by erewrite bind_raise_eq); by destruct (Hv s).
Qed.

Lemma main_raises_on_non_string_tag_witness :
  let E := sample_env (inr (Response 200 (Some (JDict [("tag_name", JNum 7)]))))
                      (StreamFails connect_error) "" in
  let w1 := (install_xray E (Some ["repo"; "xray_download"]) true stale_world).2 in
  let w2 := World (fs w1) (log w1) (trace w1 ++ [EvGet releases_latest_url]) in
  ∃ e, exn_type e = AttributeError ∧
    main E stale_world =
      (Raise e,
       World (fs w2) (log w2 ++ [(INFO, "xray-core 最新版本为 " +:+ py_repr E (JNum 7))])
             (trace w2)).
Proof.
  intros E w1 w2.
  apply (main_raises_on_non_string_tag E stale_world false w1 (JNum 7) w2);
    [by vm_compute|by vm_compute|done].
Defined.

(** When the tag request is answered with a status other than 200, the
    tag is the empty string and [main] looks for a directory named
    [Xray-core-]: when there is none it logs the status and the missing
    path and ends without exception; nothing is compiled and no version
    is set. *)
Theorem main_stops_on_failed_tag_request E w b w1 r :
  let path := script_dir E /: "xray_download" in
  install_xray E (Some path) true w = (Ret b, w1) →
  http_get E (trace w1) releases_latest_url = inr r → status_code r ≠ 200 →
  fs w1 !! (path /: "Xray-core-") = None →
  main E w =
    (Ret tt,
     World (fs w1)
           (log w1 ++ [(ERROR, "获取 xray-core 最新 release 版本失败，状态码 "
                               +:+ pretty (status_code r));
                       (INFO, "xray-core 最新版本为 ");
                       (ERROR, path_str (path /: "Xray-core-") +:+ " 不存在")])
           (trace w1 ++ [EvGet releases_latest_url])).
Proof.
  intros path Hinstall Hget Hst Hsrc. unfold main. fold path. step Hinstall.
  assert (_get_latest_xray_release E w1 =
            (Ret (JStr ""),
             World (fs w1)
                   (log w1 ++ [(ERROR, "获取 xray-core 最新 release 版本失败，状态码 "
                                       +:+ pretty (status_code r))])
                   (trace w1 ++ [EvGet releases_latest_url]))) as Hrel.
  { unfold _get_latest_xray_release.
    pose proof (client_get_spec E releases_latest_url w1) as Hc.
    rewrite Hget in Hc. step Hc.
    destruct (Z.eqb_spec (status_code r) 200) as [|_]; [done|].
    change (negb false) with true. cbv iota.
    by stepu (logger_spec _ _ _). }
  step Hrel. stepu (logger_spec _ _ _).
  unfold replace_v. stepu (ret_spec _ _). stepu (get_fs_spec _).
  unfold fs_exists. simpl. rewrite Hsrc. unfold logger. simpl.
  by rewrite <- !app_assoc.
Qed.

Lemma main_stops_on_failed_tag_request_witness :
  let E := sample_env (inr (Response 403 None)) (StreamFails connect_error) "" in
  let w1 := (install_xray E (Some ["repo"; "xray_download"]) true stale_world).2 in
  main E stale_world =
    (Ret tt,
     World (fs w1)
           (log w1 ++ [(ERROR, "获取 xray-core 最新 release 版本失败，状态码 "
                               +:+ pretty 403);
                       (INFO, "xray-core 最新版本为 ");
                       (ERROR, path_str (["repo"; "xray_download"] /: "Xray-core-")
                               +:+ " 不存在")])
           (trace w1 ++ [EvGet releases_latest_url])).
Proof.
  intros E w1.
  apply (main_stops_on_failed_tag_request E stale_world false w1 (Response 403 None));
    by vm_compute.
Defined.

(** * The import rewrite, the version and the entry point *)

(** ** The rewrite, line by line *)

Lemma endswith_app a p : endswith (a +:+ p) p = true.
Proof.
  induction a as [|x a IH]; simpl.
  - destruct p as [|c p]; [done|].
    change (String.eqb (String c p) (String c p) || endswith p (String c p) = true).
    by rewrite String.eqb_refl.
  - rewrite IH. apply orb_true_r.
Qed.

Lemma rstrip_spaces u : str_all is_space u = true → rstrip u = "".
Proof.
  induction u as [|a u IH]; simpl; [done|].
  intros [Ha Hu]%andb_true_iff. by rewrite IH, Ha.
Qed.

Lemma rstrip_app_spaces x u :
  str_all is_space u = true → rstrip (x +:+ u) = rstrip x.
Proof.
  intros Hu. induction x as [|a x IH]; simpl; [by apply rstrip_spaces|].
  by rewrite IH.
Qed.

Lemma rstrip_keeps x c :
  is_space c = false → rstrip (x +:+ String c "") = x +:+ String c "".
Proof.
  intros Hc. induction x as [|a x IH]; simpl; [by rewrite Hc|].
  rewrite IH. by destruct x.
Qed.

(** A text that ends in [from] and white space. *)
Lemma ends_in_from x u :
  str_all is_space u = true → endswith (rstrip (x +:+ "from" +:+ u)) "from" = true.
Proof.
  intros Hu.
  replace (x +:+ "from" +:+ u) with ((x +:+ "from") +:+ u) by (by norm_app).
  rewrite rstrip_app_spaces by done.
  replace (x +:+ "from") with ((x +:+ "fro") +:+ "m") by (by norm_app).
  rewrite rstrip_keeps by done.
  replace ((x +:+ "fro") +:+ "m") with (x +:+ "from") by (by norm_app).
  apply endswith_app.
Qed.

Lemma startswith_before_lf p : ∀ b x,
  str_all (cset_mem CAny) p = true →
  startswith (b +:+ String LF x) p = true → startswith b p = true.
Proof.
  induction p as [|c p IH]; intros b x Hp H; [done|].
  simpl in Hp. apply andb_true_iff in Hp as [Hc Hp].
  destruct b as [|a b].
  - change (Ascii.eqb LF c && startswith x p = true) in H.
    apply andb_true_iff in H as [Ha _]. apply Ascii.eqb_eq in Ha as <-.
    by vm_compute in Hc.
  - change (Ascii.eqb a c && startswith (b +:+ String LF x) p = true) in H.
    change (Ascii.eqb a c && startswith b p = true).
    apply andb_true_iff in H as [-> H]. by apply (IH _ x).
Qed.

Lemma str_all_suffix p a b : str_all p (a +:+ b) = true → str_all p b = true.
Proof. rewrite str_all_app. by intros [_ ?]%andb_true_iff. Qed.

(** The end of a text that ends in a line feed. *)
Lemma suffix_of_line t a b :
  t +:+ NL = a +:+ b → b ≠ "" → ∃ b', b = b' +:+ NL ∧ t = a +:+ b'.
Proof.
  intros H Hb. destruct (app_eq_split _ _ _ _ H) as [e [[-> He]|[-> ->]]].
  - destruct e as [|x e].
    + simpl in He. subst b. exists "". by rewrite !app_nil_r_str.
    + injection He as _ He. destruct e; simpl in He; [|done]. by subst b.
  - by exists e.
Qed.

(** In a line of the second kind no match begins. *)
Lemma no_match_in_other t after a b :
  other_ok t after = true → t +:+ NL = a +:+ b → b ≠ "" →
  match_here import_re (b +:+ after) = None.
Proof.
  unfold other_ok. intros [Hlf Hok]%andb_true_iff Heq Hb.
  destruct (suffix_of_line _ _ _ Heq Hb) as (b' & -> & ->).
  assert (str_all (cset_mem CAny) b' = true) as Hb' by (by eapply str_all_suffix).
  destruct (match_here import_re ((b' +:+ NL) +:+ after)) as [[caps rest]|] eqn:Hm;
    [exfalso|done].
  replace ((b' +:+ NL) +:+ after) with (b' +:+ String LF after) in Hm by (by norm_app).
  apply orb_true_iff in Hok as [Hfrom|Hok].
  { apply negb_true_iff in Hfrom. apply contains_suffix in Hfrom.
    apply match_import_from in Hm.
    apply (startswith_before_lf "from") in Hm; [|done].
    by rewrite (contains_startswith _ _ Hm) in Hfrom. }
  apply andb_true_iff in Hok as [Hok Hnext]. apply andb_true_iff in Hok as [Hpb2 Hend].
  apply negb_true_iff in Hpb2, Hend, Hnext.
  apply match_import_inv in Hm as (a0 & w & g1 & b0 & w' & g2 & Hs & Hw & Hg1 & Hw' & Hg2 & _).
  destruct (cut_lf (String a0 w)) as [Hw1|(u & v & Hw1 & Hu)].
  - destruct (cut_lf (String b0 w')) as [Hw2|(u & v & Hw2 & Hu)].
    + destruct (cut_lf rest) as [Hrest|(ra & rb & -> & Hra)].
      * assert (str_all (cset_mem CAny) (b' +:+ String LF after) = true) as Hall.
        { rewrite Hs, !str_all_app, Hw1, Hg1, Hw2, Hg2, Hrest. done. }
        rewrite str_all_app in Hall. simpl in Hall. by rewrite andb_false_r in Hall.
      * replace ("from" +:+ String a0 w +:+ g1 +:+ String b0 w' +:+ "import " +:+ g2
                 +:+ "pb2" +:+ ra +:+ String LF rb)
          with (("from" +:+ String a0 w +:+ g1 +:+ String b0 w' +:+ "import " +:+ g2
                 +:+ "pb2" +:+ ra) +:+ String LF rb) in Hs by (by norm_app).
        apply first_lf_unique in Hs as [-> _]; [|done|].
        2:{ change ("from" +:+ String a0 w +:+ g1 +:+ String b0 w' +:+ "import " +:+ g2
                 +:+ "pb2" +:+ ra)
              with ("from" +:+ (String a0 w +:+ g1 +:+ String b0 w' +:+ "import " +:+ g2
                 +:+ "pb2" +:+ ra)).
            rewrite !str_all_app, Hw1, Hg1, Hw2, Hg2, Hra. done. }
        apply contains_suffix in Hpb2.
        replace ("from" +:+ String a0 w +:+ g1 +:+ String b0 w' +:+ "import " +:+ g2
                 +:+ "pb2" +:+ ra)
          with (("from" +:+ String a0 w +:+ g1 +:+ String b0 w' +:+ "import " +:+ g2)
                 +:+ "pb2" +:+ ra) in Hpb2 by (by norm_app).
        by rewrite contains_intro in Hpb2.
    + rewrite Hw2 in Hs, Hw'.
      replace ("from" +:+ String a0 w +:+ g1 +:+ (u +:+ String LF v) +:+ "import " +:+ g2
               +:+ "pb2" +:+ rest)
        with (("from" +:+ String a0 w +:+ g1 +:+ u)
              +:+ String LF (v +:+ "import " +:+ g2 +:+ "pb2" +:+ rest)) in Hs
        by (by norm_app).
      apply first_lf_unique in Hs as [_ ->]; [|done|].
      2:{ change ("from" +:+ String a0 w +:+ g1 +:+ u)
            with ("from" +:+ (String a0 w +:+ g1 +:+ u)).
          rewrite !str_all_app, Hw1, Hg1, Hu. done. }
      rewrite str_all_app in Hw'. apply andb_true_iff in Hw' as [_ Hv].
      simpl in Hv. unfold next_is_import in Hnext.
      rewrite lstrip_spaces in Hnext by done. by simpl in Hnext.
  - rewrite Hw1 in Hs, Hw.
    replace ("from" +:+ (u +:+ String LF v) +:+ g1 +:+ String b0 w' +:+ "import " +:+ g2
             +:+ "pb2" +:+ rest)
      with (("from" +:+ u) +:+ String LF (v +:+ g1 +:+ String b0 w' +:+ "import " +:+ g2
             +:+ "pb2" +:+ rest)) in Hs by (by norm_app).
    apply first_lf_unique in Hs as [-> _]; [|done|by simpl].
    rewrite str_all_app in Hw. apply andb_true_iff in Hw as [Hu' _].
    replace (a +:+ "from" +:+ u) with (a +:+ "from" +:+ u) in Hend by done.
    by rewrite ends_in_from in Hend.
Qed.

Lemma rewrite_other_line t after :
  other_ok t after = true →
  rewrite_code (t +:+ NL +:+ after) = t +:+ NL +:+ rewrite_code after.
Proof.
  intros H.
  replace (t +:+ NL +:+ after) with ((t +:+ NL) +:+ after) by (by norm_app).
  unfold rewrite_code. rewrite re_sub_skip; [by norm_app|].
  intros a b Heq Hb. by apply (no_match_in_other t after a b).
Qed.

Lemma rewrite_import_line Y X T after :
  is_pb2_import Y X T = true → next_is_import after = false →
  rewrite_code (import_stmt Y X T +:+ NL +:+ after)
  = import_stmt ("xray_rpc." +:+ Y) X T +:+ NL +:+ rewrite_code after.
Proof.
  intros HY Hnext.
  pose proof (rewrite_import_stmt "" Y X T (NL +:+ after) eq_refl HY eq_refl Hnext)
    as H.
  change (rewrite_code (import_stmt Y X T +:+ NL +:+ after)
          = import_stmt ("xray_rpc." +:+ Y) X T +:+ rewrite_code (String LF after)) in H.
  rewrite H. by f_equal.
Qed.

Lemma file_text_cons l l' ls :
  file_text (l :: l' :: ls) = line_text l +:+ NL +:+ file_text (l' :: ls).
Proof. done. Qed.

(** A file of lines of the two kinds is rewritten line by line. *)
Lemma rewrite_lines ls :
  lines_ok ls = true → rewrite_code (file_text ls) = file_text (map prefixed ls).
Proof.
  induction ls as [|l ls IH]; [done|].
  change (lines_ok (l :: ls))
    with (match l with
          | Import Y X T => is_pb2_import Y X T && negb (next_is_import (file_text ls))
          | Other t => other_ok t (file_text ls)
          end && lines_ok ls).
  intros [Hl Hls]%andb_true_iff. destruct ls as [|l' ls].
  - destruct l as [Y X T|t].
    + apply andb_true_iff in Hl as [HY _].
      pose proof (rewrite_import_stmt "" Y X T "" eq_refl HY eq_refl eq_refl) as H.
      change (rewrite_code (import_stmt Y X T +:+ "")
              = import_stmt ("xray_rpc." +:+ Y) X T +:+ "") in H.
      by rewrite !app_nil_r_str in H.
    + apply rewrite_code_id. unfold other_ok in Hl.
      apply andb_true_iff in Hl as [_ Hl].
      apply orb_true_iff in Hl as [Hl|Hl]; [left; by apply negb_true_iff|].
      apply andb_true_iff in Hl as [Hl _]. apply andb_true_iff in Hl as [Hl _].
      right. by apply negb_true_iff.
  - change (map prefixed (l :: l' :: ls))
      with (prefixed l :: prefixed l' :: map prefixed ls).
    rewrite !file_text_cons.
    change (prefixed l' :: map prefixed ls) with (map prefixed (l' :: ls)).
    rewrite <- (IH Hls).
    destruct l as [Y X T|t]; cbn [line_text prefixed].
    + apply andb_true_iff in Hl as [HY Hnext]. apply negb_true_iff in Hnext.
      by rewrite rewrite_import_line.
    + by rewrite rewrite_other_line.
Qed.

(** C7, as stated, fails: after a line that ends in [from] the pattern
    takes the line feed for the white space after [from], and the import
    statement of the next line for the module path. *)
Lemma rewrite_misses_import_after_from :
  let code := "# generated from" +:+ NL +:+ "from foo.bar import baz_pb2_grpc" +:+ NL in
  ¬ rewrite_prefixes_line code ∧
  rewrite_code code
  = "# generated from xray_rpc.from foo.bar import baz_pb2_grpc" +:+ NL.
Proof.
  intros code. split; [|reflexivity]. unfold rewrite_prefixes_line. intros H.
  assert ("from foo.bar import baz_pb2_grpc" ∈ split_char LF code) as Hin.
  { vm_compute. apply list_elem_of_further, list_elem_of_here. }
  apply H in Hin. by vm_compute in Hin.
Qed.

(** C7, amended: in a file whose lines are pb2 import statements (module
    path not empty and free of white space, no white space but blanks and
    no further [from] on the rest of the line, next text that is not
    white space no [import] statement) and lines in which no match begins
    (no [from]; or no [pb2], no [from] at the end, and the next text that
    is not white space no [import] statement), one pass puts [xray_rpc.]
    before the module path of every pb2 import statement and leaves the
    other lines as they are. *)
Theorem rewrite_file_prefixes_import py w ls :
  fs w !! py = Some (File (file_text ls)) → lines_ok ls = true →
  rewrite_file py w =
    (Ret tt,
     World (<[py := File (file_text (map prefixed ls))]> (fs w)) (log w) (trace w)).
Proof.
  intros Hpy Hok. unfold rewrite_file.
  assert (read_text py w = (Ret (file_text ls), w)) as Hread.
  { unfold read_text, bind, get_fs, ret. by rewrite Hpy. }
  step Hread. by rewrite rewrite_lines.
Qed.

Lemma rewrite_file_prefixes_import_witness :
  let py := ["repo"; "xray_rpc"; "baz_pb2_grpc.py"] in
  let w := World {[ py := File ("# generated code" +:+ NL
                                +:+ "import grpc" +:+ NL
                                +:+ "from google.protobuf import descriptor" +:+ NL
                                +:+ NL
                                +:+ "from foo.bar import baz_pb2_grpc" +:+ NL
                                +:+ "from foo import qux_pb2 as foo_dot_qux__pb2") ]}
                 [] [] in
  rewrite_file py w =
    (Ret tt,
     World (<[py := File ("# generated code" +:+ NL
                          +:+ "import grpc" +:+ NL
                          +:+ "from google.protobuf import descriptor" +:+ NL
                          +:+ NL
                          +:+ "from xray_rpc.foo.bar import baz_pb2_grpc" +:+ NL
                          +:+ "from xray_rpc.foo import qux_pb2 as foo_dot_qux__pb2")]>
              (fs w)) [] []).
Proof.
  intros py w.
  exact (rewrite_file_prefixes_import py w
           [Other "# generated code"; Other "import grpc";
            Other "from google.protobuf import descriptor"; Other "";
            Import "foo.bar" "baz_" "_grpc";
            Import "foo" "qux_pb2 as foo_dot_qux__" ""]
           eq_refl eq_refl).
Defined.

(** ** Where the pattern matches, and idempotence *)

Lemma has_match_unfold s :
  has_match s =
  match match_here import_re s with
  | Some _ => true
  | None => match s with String _ s' => has_match s' | EmptyString => false end
  end.
Proof. by destruct s. Qed.

Lemma has_match_false s :
  has_match s = false → ∀ a b, s = a +:+ b → match_here import_re b = None.
Proof.
  induction s as [|x s IH]; intros H a b Heq.
  - destruct a; [|done]. simpl in Heq. by subst b.
  - rewrite has_match_unfold in H.
    destruct (match_here import_re (String x s)) eqn:Hm; [done|].
    destruct a as [|y a]; simpl in Heq; [by subst b|].
    injection Heq as _ Heq. by apply (IH H a).
Qed.

Lemma has_match_intro a b :
  is_Some (match_here import_re b) → has_match (a +:+ b) = true.
Proof.
  intros [x Hx]. induction a as [|y a IH].
  - simpl String.append. rewrite has_match_unfold. by rewrite Hx.
  - change (String y a +:+ b) with (String y (a +:+ b)). rewrite has_match_unfold.
    by destruct (match_here import_re (String y (a +:+ b))).
Qed.

(** The first match in a text. *)
Lemma first_match s :
  has_match s = true →
  ∃ pre b x, s = pre +:+ b ∧ match_here import_re b = Some x ∧
    ∀ a c, pre = a +:+ c → c ≠ "" → match_here import_re (c +:+ b) = None.
Proof.
  induction s as [|y s IH]; intros H; [by vm_compute in H|].
  rewrite has_match_unfold in H.
  destruct (match_here import_re (String y s)) as [x|] eqn:Hm.
  - exists "", (String y s), x. split; [done|]. split; [done|].
    intros a c Heq Hc. by destruct a, c.
  - destruct (IH H) as (pre & b & x & -> & Hb & Hpre).
    exists (String y pre), b, x. split; [done|]. split; [done|].
    intros a c Heq Hc. destruct a as [|z a]; simpl in Heq.
    + by subst c.
    + injection Heq as _ Heq. by apply (Hpre a).
Qed.

(** What the rewrite makes of a text with a match. *)
Lemma rewrite_first_match s :
  has_match s = true →
  ∃ pre a w g1 b w' g2 rest,
    s = pre +:+ "from" +:+ String a w +:+ g1 +:+ String b w' +:+ "import " +:+ g2
        +:+ "pb2" +:+ rest ∧
    str_all is_space (String a w) = true ∧ str_all (cset_mem CAny) g1 = true ∧
    str_all is_space (String b w') = true ∧ str_all (cset_mem CAny) g2 = true ∧
    rewrite_code s
    = pre +:+ "from xray_rpc." +:+ g1 +:+ " import " +:+ g2 +:+ "pb2"
      +:+ rewrite_code rest.
Proof.
  intros H. destruct (first_match s H) as (pre & m & [caps rest] & -> & Hm & Hpre).
  pose proof (match_import_inv _ _ _ Hm)
    as (a & w & g1 & b & w' & g2 & Hs & Hw & Hg1 & Hw' & Hg2 & ->).
  exists pre, a, w, g1, b, w', g2, rest. subst m. split_and!; try done.
  unfold rewrite_code at 1. rewrite re_sub_skip by done. f_equal.
  replace ("from" +:+ String a w +:+ g1 +:+ String b w' +:+ "import " +:+ g2
           +:+ "pb2" +:+ rest)
    with (("from" +:+ String a w +:+ g1 +:+ String b w' +:+ "import " +:+ g2 +:+ "pb2")
          +:+ rest) in Hm |- * by (by norm_app).
  assert ("from" +:+ String a w +:+ g1 +:+ String b w' +:+ "import " +:+ g2 +:+ "pb2"
          ≠ "") as Hne by done.
  rewrite (re_sub_match _ _ _ _ _ Hne Hm).
  fold (rewrite_code rest). simpl expand. simpl group. by norm_app.
Qed.

(** A text that goes on as itself after [u] begins with copies of [u]. *)
Lemma period_head (P : ascii → bool) u : u ≠ "" → str_all P u = true →
  ∀ n g A B, String.length g = n → g +:+ A = u +:+ g +:+ B →
  ∃ c A', A = String c A' ∧ P c = true.
Proof.
  intros Hu HP n. induction n as [n IH] using lt_wf_ind. intros g A B Hn Heq.
  destruct (app_eq_split _ _ _ _ Heq) as [e [[-> HA]|[Hg HB]]].
  - rewrite str_all_app in HP. apply andb_true_iff in HP as [Hg He].
    destruct e as [|c e].
    + rewrite app_nil_r_str in Hu. destruct g as [|c g]; [done|].
      exists c, (g +:+ B). simpl in Hg. apply andb_true_iff in Hg as [Hc _].
      by subst A.
    + exists c, (e +:+ g +:+ B). simpl in He. apply andb_true_iff in He as [Hc _].
      by subst A.
  - subst g. rewrite app_assoc_str in HB. symmetry in HB.
    apply (IH (String.length e)) with (g := e) (B := B); [|done|done].
    rewrite <- Hn, length_app_str. destruct u; [done|]. simpl. lia.
Qed.

(** The rewrite changes every text in which the pattern matches. *)
Lemma rewrite_changes s : has_match s = true → rewrite_code s ≠ s.
Proof.
  intros H Heq.
  destruct (rewrite_first_match s H)
    as (pre & a & w & g1 & b & w' & g2 & rest & Hs & Hw & _ & Hw' & _ & Hr).
  rewrite Hr in Heq. rewrite Hs in Heq. apply app_inv_head_str in Heq.
  change ("from xray_rpc." +:+ g1 +:+ " import " +:+ g2 +:+ "pb2" +:+ rewrite_code rest)
    with ("from " +:+ "xray_rpc." +:+ g1 +:+ " import " +:+ g2 +:+ "pb2"
          +:+ rewrite_code rest) in Heq.
  change ("from" +:+ String a w +:+ g1 +:+ String b w' +:+ "import " +:+ g2 +:+ "pb2"
          +:+ rest)
    with ("from" +:+ String a (w +:+ g1 +:+ String b w' +:+ "import " +:+ g2 +:+ "pb2"
          +:+ rest)) in Heq.
  injection Heq as Ha Heq.
  destruct w as [|c w].
  - symmetry in Heq. simpl String.append at 1 in Heq.
    destruct (period_head (λ c, negb (is_space c)) "xray_rpc." ltac:(done) eq_refl
                _ g1 _ _ eq_refl Heq) as (c & A' & [= <- _] & Hc).
    simpl in Hw'. apply andb_true_iff in Hw' as [Hb _]. by rewrite Hb in Hc.
  - injection Heq as <- _. simpl in Hw. by rewrite andb_false_r in Hw.
Qed.

(** The pattern matches what the rewrite puts in the place of a match. *)
Lemma rewrite_matches_again s :
  has_match s = true → has_match (rewrite_code s) = true.
Proof.
  intros H.
  destruct (rewrite_first_match s H)
    as (pre & a & w & g1 & b & w' & g2 & rest & _ & _ & Hg1 & _ & Hg2 & ->).
  apply has_match_intro.
  replace ("from xray_rpc." +:+ g1 +:+ " import " +:+ g2 +:+ "pb2" +:+ rewrite_code rest)
    with (("from" +:+ " " +:+ ("xray_rpc." +:+ g1) +:+ (" " +:+ "import " +:+ g2 +:+ "pb2"))
          +:+ rewrite_code rest) by (by norm_app).
  unfold match_here. eapply rmatch_complete; [|done].
  apply matches_import; [done|done| |by apply matches_tail].
  by rewrite str_all_app, Hg1.
Qed.

Lemma rewrite_no_match s : has_match s = false → rewrite_code s = s.
Proof.
  intros H.
  assert (rewrite_code (s +:+ "") = s +:+ rewrite_code "") as Hs.
  { apply re_sub_skip. intros a b -> _. rewrite app_nil_r_str.
    by apply (has_match_false _ H a). }
  by rewrite rewrite_code_nil, !app_nil_r_str in Hs.
Qed.

Lemma other_ok_after t after after' :
  (next_is_import after = false → next_is_import after' = false) →
  other_ok t after = true → other_ok t after' = true.
Proof.
  unfold other_ok. intros Hn [-> H]%andb_true_iff. simpl.
  destruct (contains "from" t); [simpl in *|done].
  apply andb_true_iff in H as [-> Hnext]. apply negb_true_iff in Hnext.
  by rewrite (Hn Hnext).
Qed.

Lemma lines_ok_prefixed ls : lines_ok ls = true → lines_ok (map prefixed ls) = true.
Proof.
  induction ls as [|l ls IH]; [done|].
  change (lines_ok (l :: ls))
    with (match l with
          | Import Y X T => is_pb2_import Y X T && negb (next_is_import (file_text ls))
          | Other t => other_ok t (file_text ls)
          end && lines_ok ls).
  change (lines_ok (map prefixed (l :: ls)))
    with (match prefixed l with
          | Import Y X T =>
              is_pb2_import Y X T && negb (next_is_import (file_text (map prefixed ls)))
          | Other t => other_ok t (file_text (map prefixed ls))
          end && lines_ok (map prefixed ls)).
  intros [Hl Hls]%andb_true_iff. rewrite (IH Hls), andb_true_r.
  rewrite <- (rewrite_lines ls Hls).
  destruct l as [Y X T|t]; cbn [prefixed].
  - apply andb_true_iff in Hl as [HY Hnext]. apply negb_true_iff in Hnext.
    by rewrite is_pb2_import_prefixed, next_is_import_rewrite.
  - eapply other_ok_after; [|done]. apply next_is_import_rewrite.
Qed.

(** C1, as stated, fails: the second pass matches what the first pass
    wrote and prefixes it again. *)
Lemma rewrite_not_idempotent :
  ¬ rewrite_idempotent_on "from foo.bar import baz_pb2_grpc" ∧
  rewrite_code "from xray_rpc.foo.bar import baz_pb2_grpc"
  = "from xray_rpc.xray_rpc.foo.bar import baz_pb2_grpc".
Proof. split; [by vm_compute | reflexivity]. Qed.

(** C1, amended: one pass returns a text unchanged exactly when the
    pattern matches nowhere in it, as in every text without [from] or
    without [pb2]; the pattern matches in the output of a pass exactly
    when it matches in its input; so the rewrite is idempotent on a text
    exactly when the pattern matches nowhere in it, and a text with a
    match is changed by every further pass.  In a file of pb2 import
    statements and of lines in which no match begins, two passes put the
    prefix twice before the module path of every statement and leave the
    other lines as they are. *)
Theorem rewrite_idempotent_iff_no_match :
  (∀ code, rewrite_code code = code ↔ has_match code = false) ∧
  (∀ code, contains "from" code = false ∨ contains "pb2" code = false →
     has_match code = false) ∧
  (∀ code, has_match (rewrite_code code) = has_match code) ∧
  (∀ code, rewrite_idempotent_on code ↔ has_match code = false) ∧
  (∀ ls, lines_ok ls = true →
     rewrite_code (rewrite_code (file_text ls))
     = file_text (map prefixed (map prefixed ls))).
Proof.
  assert (∀ code, rewrite_code code = code ↔ has_match code = false) as Hfix.
  { intros code. split; [|apply rewrite_no_match].
    intros Heq. destruct (has_match code) eqn:Hm; [|done].
    by destruct (rewrite_changes code Hm). }
  assert (∀ code, has_match (rewrite_code code) = has_match code) as Hsame.
  { intros code. destruct (has_match code) eqn:Hm.
    - by apply rewrite_matches_again.
    - by rewrite (rewrite_no_match code Hm). }
  split_and!; [done| |done| |].
  - intros code H. apply Hfix. by apply rewrite_code_id.
  - intros code. unfold rewrite_idempotent_on. by rewrite Hfix, Hsame.
  - intros ls Hok.
    by rewrite (rewrite_lines ls Hok), (rewrite_lines _ (lines_ok_prefixed ls Hok)).
Qed.

Lemma rewrite_idempotent_iff_no_match_witness :
  rewrite_idempotent_on "import grpc" ∧
  rewrite_code (rewrite_code ("import grpc" +:+ NL
                              +:+ "from foo.bar import baz_pb2_grpc" +:+ NL))
  = "import grpc" +:+ NL
    +:+ "from xray_rpc.xray_rpc.foo.bar import baz_pb2_grpc" +:+ NL.
Proof.
  destruct rewrite_idempotent_iff_no_match as (_ & _ & _ & Hidem & Htwice).
  split.
  - apply (Hidem "import grpc"). reflexivity.
  - exact (Htwice [Other "import grpc"; Import "foo.bar" "baz_" "_grpc"; Other ""]
             eq_refl).
Defined.

(** ** The version of the package *)


(** The two examples of the specification hold: their tags have no
    other v than the leading one. *)
Example sync_version_other_release :
  let E := sample_env (release "v2.0.0") (StreamFails connect_error)
                      ("1.0.0" +:+ NL) in
  trace (sync_version E (JStr "v2.0.0") fresh_world).2 =
    [EvRun ["poetry"; "version"; "-s"]; EvSystem "poetry version 2.0.0"].
Proof. reflexivity. Qed.

Example sync_version_same_release :
  let E := sample_env (release "v1.2.3") (StreamFails connect_error)
                      ("1.2.3.202401010000" +:+ NL) in
  trace (sync_version E (JStr "v1.2.3") fresh_world).2 =
    [EvRun ["poetry"; "version"; "-s"];
     EvSystem "poetry version 1.2.3.202405170930"].
Proof. reflexivity. Qed.

(** ** The entry point *)

(** C2, as stated, fails: with sources left by an earlier run the install
    step returns false (the download fails) and the compiler and the
    version command are run all the same. *)
Lemma failed_install_does_not_abort :
  ¬ failed_install_aborts
      (sample_env (release "v1.0.0") (StreamFails connect_error) ("1.0.0" +:+ NL))
      stale_world.
Proof.
  unfold failed_install_aborts. intros H.
  assert ((install_xray
             (sample_env (release "v1.0.0") (StreamFails connect_error) ("1.0.0" +:+ NL))
             (Some ["repo"; "xray_download"]) true stale_world).1 = Ret false) as Hi
    by (by vm_compute).
  apply H in Hi. by vm_compute in Hi.
Qed.

Lemma sync_version_spec E t w p :
  subprocess_run E ["poetry"; "version"; "-s"] (fs w) = inr p →
  let numeric := replace_char "v" "" t in
  let version := if startswith (strip (stdout p)) numeric
                 then new_version E numeric else numeric in
  ∃ l, sync_version E (JStr t) w =
    (Ret tt,
     World (os_system E ("poetry version " +:+ version) (fs w)).2 l
           (trace w ++ [EvRun ["poetry"; "version"; "-s"];
                        EvSystem ("poetry version " +:+ version)])).
Proof.
  intros Hp numeric version.
  unfold sync_version. step (run_spec E _ w p Hp).
  unfold replace_v. stepu (ret_spec _ _).
  fold numeric. unfold version.
  destruct (startswith (strip (stdout p)) numeric).
  - stepu (logger_spec _ _ _). stepu (logger_spec _ _ _).
    stepu (system_spec _ _ _). simpl. rewrite <- (app_assoc (trace w)). by eexists.
  - stepu (logger_spec _ _ _).
    stepu (system_spec _ _ _). simpl. rewrite <- (app_assoc (trace w)). by eexists.
Qed.

Lemma gen_pb2_run E src dst w :
  dst ≠ [] → fs w !! dst = None ∨ fs w !! dst = Some Dir →
  fs w !! parent dst = Some Dir →
  let command := protoc_command E src dst
                   (map path_str (rglob (recreated (fs w) dst) src ".proto")) in
  gen_pb2 E src dst w =
    (Ret (os_system E command (recreated (fs w) dst)).1,
     World (os_system E command (recreated (fs w) dst)).2 (log w)
           (trace w ++ [EvSystem command])).
Proof.
  intros Hne Hdst Hpar command.
  pose proof (parent_not_below dst Hne) as Hnb.
  set (f' := if is_dir (fs w) dst
             then filter (λ kv : path * node, ¬ dst `prefix_of` kv.1) (fs w)
             else fs w).
  assert (f' !! dst = None) as H1.
  { unfold f', is_dir. destruct Hdst as [Hd|Hd]; rewrite Hd; [done|].
    apply map_lookup_filter_None. right. intros x _ Hx. by apply Hx. }
  assert (f' !! parent dst = Some Dir) as H2.
  { unfold f'. destruct (is_dir (fs w) dst); [|done].
    rewrite map_lookup_filter, Hpar. simpl. by rewrite option_guard_True. }
  unfold gen_pb2.
  step (rmtree_spec dst w). fold f'.
  step (mkdir_ok dst (World f' (log w) (trace w)) H1 H2).
  step (get_fs_spec (World (<[dst := Dir]> f') (log w) (trace w))).
  by stepu (system_spec _ _ _).
Qed.

Lemma for_each_rewrite_run l w :
  NoDup l → (∀ q, q ∈ l → ∃ c, fs w !! q = Some (File c)) →
  ∃ f3, for_each l rewrite_file w = (Ret tt, World f3 (log w) (trace w)) ∧
    ∀ q, q ∈ l → ∃ c, fs w !! q = Some (File c) ∧
                       f3 !! q = Some (File (rewrite_code c)).
Proof.
  intros Hnd Hall. destruct (for_each_rewrite l Hnd w) as (Hl & Ht & _ & Hok).
  destruct (Hok Hall) as [Hr Hq].
  destruct (for_each l rewrite_file w) as [r [f3 l3 t3]]. simpl in *. subst.
  by exists f3.
Qed.

Lemma rewrite_imports_run dst w :
  (∀ q, q ∈ rglob (fs w) dst ".py" → is_dir (fs w) q = false) →
  ∃ f3, rewrite_imports dst w = (Ret tt, World f3 (log w) (trace w)) ∧
    ∀ q, q ∈ rglob (fs w) dst ".py" →
      ∃ c, fs w !! q = Some (File c) ∧ f3 !! q = Some (File (rewrite_code c)).
Proof.
  intros Hpy. unfold rewrite_imports. stepu (get_fs_spec _).
  apply for_each_rewrite_run; [apply rglob_NoDup|].
  intros q Hq. destruct (rglob_exists _ _ _ _ Hq) as [[c|] Hn]; [by eauto|].
  specialize (Hpy q Hq). unfold is_dir in Hpy. by rewrite Hn in Hpy.
Qed.

(** C2, amended: [main] reads neither what the install step returns nor
    the exit code of the compiler.  A stage stops the later stages by
    raising: an exception that leaves the install step or the tag request
    leaves [main], and nothing else is done.  After a tag request that
    returned the text of a tag, whatever the install step returned, true
    or false: when the directory of the sources of that tag does not
    exist, an error is logged and nothing else is done; when it exists and
    the destination is a regular file, [FileExistsError] leaves [main]
    before any command is run; when it exists, the destination is absent
    or a directory in the directory of the script, the compiler leaves no
    directory named [*.py] below the destination and the version can be
    read, then the compiler is run, every [*.py] module below the
    destination is rewritten and the version command is run, in this
    order, whatever the exit code of the compiler.  The tag is one whose
    directory name has no component [..], which the file system of the
    model would not resolve. *)
Theorem main_stops_by_exception_or_missing_sources E w :
  let path := script_dir E /: "xray_download" in
  let dst_path := script_dir E /: "xray_rpc" in
  (∀ e w1, install_xray E (Some path) true w = (Raise e, w1) →
     main E w = (Raise e, w1)) ∧
  (∀ b w1, install_xray E (Some path) true w = (Ret b, w1) →
     (∀ e w2, _get_latest_xray_release E w1 = (Raise e, w2) →
        main E w = (Raise e, w2)) ∧
     (∀ t w2, _get_latest_xray_release E w1 = (Ret (JStr t), w2) →
        no_parent_step (src_name t) = true →
        let src_path := path /: src_name t in
        let info := (INFO, "xray-core 最新版本为 " +:+ t) in
        (fs w2 !! src_path = None →
           main E w =
             (Ret tt,
              World (fs w2)
                    (log w2 ++ [info; (ERROR, path_str src_path +:+ " 不存在")])
                    (trace w2))) ∧
        (∀ c, fs w2 !! src_path ≠ None → fs w2 !! dst_path = Some (File c) →
           main E w =
             (Raise (FileExists dst_path),
              World (fs w2) (log w2 ++ [info]) (trace w2))) ∧
        (∀ p, fs w2 !! src_path ≠ None →
           fs w2 !! dst_path = None ∨ fs w2 !! dst_path = Some Dir →
           fs w2 !! script_dir E = Some Dir →
           let f1 := recreated (fs w2) dst_path in
           let command := protoc_command E src_path dst_path
                            (map path_str (rglob f1 src_path ".proto")) in
           let f2 := (os_system E command f1).2 in
           (∀ q, q ∈ rglob f2 dst_path ".py" → is_dir f2 q = false) →
           (∀ f, subprocess_run E ["poetry"; "version"; "-s"] f = inr p) →
           let numeric := replace_char "v" "" t in
           let version := if startswith (strip (stdout p)) numeric
                          then new_version E numeric else numeric in
           ∃ f3,
             (∀ q, q ∈ rglob f2 dst_path ".py" →
                ∃ c, f2 !! q = Some (File c) ∧ f3 !! q = Some (File (rewrite_code c))) ∧
             (main E w).1 = Ret tt ∧
             fs (main E w).2 = (os_system E ("poetry version " +:+ version) f3).2 ∧
             trace (main E w).2 =
               trace w2 ++ [EvSystem command; EvRun ["poetry"; "version"; "-s"];
                            EvSystem ("poetry version " +:+ version)]))).
Proof.
  intros path dst_path. split.
  { intros e w1 Hinstall. unfold main. fold path.
    by rewrite (bind_raise_eq _ _ _ _ _ Hinstall). }
  intros b w1 Hinstall. split.
  { intros e w2 Hrel. unfold main. fold path. step Hinstall.
    by rewrite (bind_raise_eq _ _ _ _ _ Hrel). }
  intros t w2 Hrel _ src_path info.
  assert (main E w =
          (do f <- get_fs;
           if fs_exists f src_path then
             gen_pb2 E src_path dst_path;;
             logger INFO ("成功生成 RPC 至 " +:+ path_str dst_path +:+ " 路径下");;
             rewrite_imports dst_path;;
             sync_version E (JStr t)
           else logger ERROR (path_str src_path +:+ " 不存在"))
            (World (fs w2) (log w2 ++ [info]) (trace w2))) as Hmain.
  { unfold main. fold path dst_path. step Hinstall. step Hrel.
    stepu (logger_spec _ _ _). change (py_str E (JStr t)) with t.
    unfold replace_v. by stepu (ret_spec _ _). }
  rewrite Hmain. clear Hmain. stepu (get_fs_spec _).
  unfold fs_exists. change (fs (World (fs w2) (log w2 ++ [info]) (trace w2))) with (fs w2).
  split_and!.
  - intros ->. rewrite logger_spec. simpl. by rewrite <- app_assoc.
  - intros c Hsrc Hdst. destruct (fs w2 !! src_path); [|done].
    unfold gen_pb2.
    erewrite bind_raise_eq; [done|]. stepu (rmtree_spec _ _).
    unfold is_dir. simpl. rewrite Hdst.
    unfold mkdir, bind, get_fs, raise. simpl. by rewrite Hdst.
  - intros p Hsrc Hdst Hpar.
    set (f1 := recreated (fs w2) dst_path).
    set (command := protoc_command E src_path dst_path
                      (map path_str (rglob f1 src_path ".proto"))).
    set (f2 := (os_system E command f1).2).
    intros Hpy Hrun.
    set (numeric := replace_char "v" "" t).
    set (version := if startswith (strip (stdout p)) numeric
                    then new_version E numeric else numeric).
    destruct (fs w2 !! src_path); [|done].
    assert (dst_path ≠ []) as Hne by (unfold dst_path, path_div; simpl; by destruct (script_dir E)).
    assert (fs w2 !! parent dst_path = Some Dir) as Hpar'.
    { unfold dst_path. change (script_dir E /: "xray_rpc")
        with (script_dir E ++ ["xray_rpc"]). by rewrite parent_snoc. }
    stepu (gen_pb2_run E src_path dst_path
             (World (fs w2) (log w2 ++ [info]) (trace w2)) Hne Hdst Hpar').
    cbn [fs log trace]. fold f1. fold command. fold f2.
    stepu (logger_spec _ _ _). cbn [fs log trace].
    destruct (rewrite_imports_run dst_path
                (World f2 ((log w2 ++ [info])
                           ++ [(INFO, "成功生成 RPC 至 " +:+ path_str dst_path +:+ " 路径下")])
                       (trace w2 ++ [EvSystem command])) Hpy) as (f3 & Hri & Hf3).
    exists f3. split; [exact Hf3|].
    step Hri. cbn [fs log trace].
    destruct (sync_version_spec E t
                (World f3 ((log w2 ++ [info])
                           ++ [(INFO, "成功生成 RPC 至 " +:+ path_str dst_path +:+ " 路径下")])
                       (trace w2 ++ [EvSystem command])) p (Hrun _)) as [l Hsync].
    rewrite Hsync. cbn [fst snd fs log trace].
    split_and!; [done|done|]. by rewrite <- app_assoc.
Qed.

Lemma main_stops_by_exception_or_missing_sources_witness :
  let E := sample_env (release "v1.0.0") (StreamFails connect_error)
                      ("1.0.0" +:+ NL) in
  (install_xray E (Some ["repo"; "xray_download"]) true stale_world).1 = Ret false ∧
  (main E stale_world).1 = Ret tt ∧
  trace (main E stale_world).2 =
    [EvGet releases_latest_url;
     EvStream "https://download.fastgit.org/XTLS/Xray-core/archive/refs/tags/v1.0.0.zip";
     EvGet releases_latest_url;
     EvSystem ("/usr/bin/python3 -m grpc.tools.protoc "
               +:+ "-I=/repo/xray_download/Xray-core-1.0.0 "
               +:+ "--python_out=/repo/xray_rpc --grpc_python_out=/repo/xray_rpc ");
     EvRun ["poetry"; "version"; "-s"];
     EvSystem "poetry version 1.0.0.202405170930"].
Proof.
  intros E. split; [by vm_compute|].
  set (w1 := (install_xray E (Some ["repo"; "xray_download"]) true stale_world).2).
  set (w2 := (_get_latest_xray_release E w1).2).
  destruct (main_stops_by_exception_or_missing_sources E stale_world) as [_ H].
  destruct (H false w1 ltac:(by vm_compute)) as [_ H2].
  destruct (H2 "v1.0.0" w2 ltac:(by vm_compute) eq_refl) as (_ & _ & H3).
  destruct (H3 (Completed 0 ("1.0.0" +:+ NL) "")) as (f3 & _ & Hr & _ & Ht).
  - by vm_compute.
  - right. by vm_compute.
  - by vm_compute.
  - intros q Hq. vm_compute in Hq. by apply elem_of_nil in Hq.
  - done.
  - split; [exact Hr|]. rewrite Ht. by vm_compute.
Defined.
